(** * rt-numa.c: CPU masks, CPU counting and thread-to-CPU placement

    A shallow embedding of [src/lib/rt-numa.c] (rt-tests) and the proofs of
    its specification.  The C functions are written in a small monad over
    an explicit [world]: the libnuma heap, the caller's pointer variables,
    what the operating system answers to affinity queries, and stderr. *)

From stdpp Require Import gmap strings list.
From Stdlib Require Import ZArith Lia Ascii Sorted.

Local Open Scope Z_scope.

(** ** C integers *)

Module CInt.

Definition UINT_MOD : Z := 2 ^ 32.
Definition INT_MAX : Z := 2 ^ 31 - 1.
Definition INT_MIN : Z := - 2 ^ 31.

(** The values of type [int]. *)
Definition is_int (z : Z) : Prop := INT_MIN <= z <= INT_MAX.

(** Conversion of an integer value to [unsigned int]: reduction modulo 2^32. *)
Definition to_uint (z : Z) : Z := z mod UINT_MOD.

(** Conversion of an [unsigned int] to [int] (two's complement, as gcc
    defines it). *)
Definition to_int (z : Z) : Z :=
  let r := z mod UINT_MOD in if r <=? INT_MAX then r else r - UINT_MOD.

End CInt.

Import CInt.

(** ** Bit masks

    [struct bitmask] (libnuma) and [cpu_set_t] (sched.h) are declared outside
    this repository.  Both are bit vectors of a fixed capacity; bit [i] tells
    whether CPU [i] is in the set. *)

(** Modelled from the spec: libnuma's [struct bitmask], "a set of CPU ids,
    represented as a fixed-capacity bit-vector of length max_cpus"; the
    capacity is the length of the list.  The structure carries its capacity
    itself and the functions below receive [max_cpus] as an argument of its
    own, so that the two agree is a hypothesis, [Z.of_nat (length M) =
    max_cpus], of the theorems that rest on it. *)
Definition bitmask : Type := list bool.

(** Modelled from the spec: "membership test".  As the notes in
    [use_current_cpuset] record, an index at or past the capacity reads 0.
    The parameter is an [unsigned int]. *)
Definition isbitset (bm : bitmask) (n : Z) : bool :=
  if n <? 0 then false else default false (bm !! Z.to_nat n).

(** Modelled from the spec: "clear-bit".  As the notes in
    [use_current_cpuset] record, an index at or past the capacity changes
    nothing (and that is how stdpp's list insert behaves). *)
Definition clearbit (bm : bitmask) (n : Z) : bitmask :=
  if n <? 0 then bm else <[Z.to_nat n := false]> bm.

(** Modelled from the spec: "cardinality (population count of set bits)",
    counted over the whole capacity of the mask.  libnuma returns it as an
    [unsigned int]; the capacity of a mask is the kernel's number of
    possible CPUs, far below 2^31, so the count is the same number in that
    type and in the [int] of [get_available_cpus]. *)
Fixpoint weight (bm : bitmask) : Z :=
  match bm with
  | [] => 0
  | b :: bm' => (if b then 1 else 0) + weight bm'
  end.

(** The members of a mask in ascending CPU-id order; [members_from i bm]
    numbers the first bit of [bm] as CPU [i]. *)
Fixpoint members_from (i : Z) (bm : bitmask) : list Z :=
  match bm with
  | [] => []
  | b :: bm' =>
      if b then i :: members_from (i + 1) bm' else members_from (i + 1) bm'
  end.

Definition members (bm : bitmask) : list Z := members_from 0 bm.

(** The members of a mask among the ids [i], [i+1], ..., [i+n-1], in that
    order: what a scan of [n] ids starting at [i] meets. *)
Definition members_in (bm : bitmask) (i : Z) (n : nat) : list Z :=
  filter (fun c => isbitset bm c = true) (seqZ i (Z.of_nat n)).

(** Modelled from the spec: sched.h's [cpu_set_t], a bit vector of
    [CPU_SETSIZE] bits, with its macros [CPU_ZERO], [CPU_ISSET] (0 for an
    index out of range) and [CPU_COUNT]. *)
Definition cpu_set_t : Type := list bool.
Definition CPU_SETSIZE : nat := 1024.
Definition CPU_ZERO : cpu_set_t := replicate CPU_SETSIZE false.
Definition CPU_ISSET (i : Z) (s : cpu_set_t) : bool := isbitset s i.
Definition CPU_COUNT (s : cpu_set_t) : Z := weight s.

(** ** The world and the monad of C programs *)

(** Addresses of libnuma bit masks, and of the caller's variables of type
    [struct bitmask *]. *)
Definition loc : Type := positive.
Definition addr : Type := positive.

(** A value of type [struct bitmask *]: [None] is [NULL]. *)
Definition ptr : Type := option loc.

Record world : Type := World {
  (** the bit masks libnuma has allocated and not yet freed *)
  heap : gmap loc bitmask;
  (** the caller's [struct bitmask *] variables *)
  cells : gmap addr ptr;
  (** the bits [numa_sched_getaffinity (getpid (), m)] leaves in [m] *)
  numa_affinity : bitmask;
  (** what [sched_getaffinity (0, ...)] reports; [None] when it fails *)
  sched_affinity : option cpu_set_t;
  (** the lines written to stderr, oldest first *)
  stderr : list string
}.

Definition set_heap (h : gmap loc bitmask) (w : world) : world :=
  World h (cells w) (numa_affinity w) (sched_affinity w) (stderr w).

Definition set_cells (c : gmap addr ptr) (w : world) : world :=
  World (heap w) c (numa_affinity w) (sched_affinity w) (stderr w).

Definition log_stderr (line : string) (w : world) : world :=
  World (heap w) (cells w) (numa_affinity w) (sched_affinity w)
        (stderr w ++ [line]).

(** How a call ends: it returns a value, the process exits in [fatal], or
    the behaviour is undefined by the C standard. *)
Inductive undefined_behaviour : Type :=
| DivisionByZero
| SignedOverflow
| InvalidPointer.

Inductive outcome (A : Type) : Type :=
| Returns (a : A) (w : world)
| Exits (diagnostic : string) (w : world)
| Undefined (ub : undefined_behaviour).

Arguments Returns {A} a w.
Arguments Exits {A} diagnostic w.
Arguments Undefined {A} ub.

Definition prog (A : Type) : Type := world -> outcome A.

#[global] Instance prog_ret : MRet prog := fun A a w => Returns a w.

#[global] Instance prog_bind : MBind prog := fun A B f c w =>
  match c w with
  | Returns a w' => f a w'
  | Exits d w' => Exits d w'
  | Undefined ub => Undefined ub
  end.

Definition undefined {A : Type} (ub : undefined_behaviour) : prog A :=
  fun _ => Undefined ub.

(** Modelled from the spec: rt-error.h's [fatal], which "terminates the
    calling process with a diagnostic message", and [warn], which logs the
    message and goes on.  The argument is the format string. *)
Definition fatal {A : Type} (fmt : string) : prog A := fun w => Exits fmt w.

Definition warn (fmt : string) : prog unit :=
  fun w => Returns tt (log_stderr fmt w).

(** The operator [%]: on [unsigned int] operands, and on [int] operands
    (the remainder has the sign of the dividend). *)
Definition urem (a b : Z) : prog Z :=
  if b =? 0 then undefined DivisionByZero else mret (a mod b).

Definition srem (a b : Z) : prog Z :=
  if b =? 0 then undefined DivisionByZero
  else if (a =? INT_MIN) && (b =? -1) then undefined SignedOverflow
  else mret (Z.rem a b).

(** *** libnuma and the affinity system call *)

(** Access to the mask a [struct bitmask *] points to; a pointer to no live
    mask must not be used. *)
Definition read_mask (p : loc) : prog bitmask := fun w =>
  match heap w !! p with
  | Some bm => Returns bm w
  | None => Undefined InvalidPointer
  end.

Definition write_mask (p : loc) (bm : bitmask) : prog unit := fun w =>
  Returns tt (set_heap (<[p := bm]> (heap w)) w).

(** The functions of libnuma on a mask in the heap: [weight], [isbitset]
    and [clearbit] above, applied to the mask [p] points to. *)
Definition numa_bitmask_weight (p : loc) : prog Z :=
  bm ← read_mask p; mret (weight bm).

Definition numa_bitmask_isbitset (p : loc) (n : Z) : prog bool :=
  bm ← read_mask p; mret (isbitset bm n).

Definition numa_bitmask_clearbit (p : loc) (n : Z) : prog unit :=
  bm ← read_mask p; write_mask p (clearbit bm n).

(** Modelled from the spec: "free"; the mask leaves the heap. *)
Definition drop_mask (p : loc) : prog unit := fun w =>
  Returns tt (set_heap (delete p (heap w)) w).

Definition numa_bitmask_free (p : loc) : prog unit :=
  read_mask p;; drop_mask p.

(** Modelled from the spec: "allocate a CPU-sized bitmask"; the mask is
    new, all its bits are 0, and it has the capacity of the masks the
    affinity query fills. *)
Definition numa_allocate_cpumask : prog loc := fun w =>
  let p := fresh (dom (heap w)) in
  Returns p (set_heap (<[p := replicate (length (numa_affinity w)) false]>
                         (heap w)) w).

(** Modelled from the spec: "fetch a process's current affinity into a
    bitmask". *)
Definition query_numa_affinity : prog bitmask := fun w =>
  Returns (numa_affinity w) w.

Definition numa_sched_getaffinity (p : loc) : prog unit :=
  read_mask p;; bits ← query_numa_affinity; write_mask p bits.

(** [sched_getaffinity (0, sizeof (cpu_set_t), &cpuset)]: the return value
    and the contents of [cpuset] after the call. *)
Definition sched_getaffinity (cpuset : cpu_set_t) : prog (Z * cpu_set_t) :=
  fun w =>
    match sched_affinity w with
    | Some s => Returns (0, s) w
    | None => Returns (-1, cpuset) w
    end.

(** Modelled from the spec: errno.h's [ENOMEM], the "out-of-memory /
    allocation error" code (12 on Linux). *)
Definition ENOMEM : Z := 12.

(** [strchr (str, c) != NULL] *)
Fixpoint strchr (str : string) (c : Ascii.ascii) : bool :=
  match str with
  | EmptyString => false
  | String a str' => if Ascii.eqb a c then true else strchr str' c
  end.

(** [*p = v] for a caller's variable [p] *)
Definition store (p : addr) (v : ptr) : prog unit := fun w =>
  Returns tt (set_cells (<[p := v]> (cells w)) w).

(** ** The functions of rt-numa.c *)

(** The end of line that closes every diagnostic. *)
Definition LF : string := String (Ascii.ascii_of_nat 10) EmptyString.

Definition msg_getaffinity_m : string := "sched_getaffinity failed: %m" +:+ LF.
Definition msg_getaffinity_s : string := "sched_getaffinity failed: %s" +:+ LF.
Definition msg_no_cpus : string := "No allowable cpus to run on" +:+ LF.
Definition msg_bug : string := "Bug in cpu mask handling code." +:+ LF.

(** [int get_available_cpus (struct bitmask *cpumask)] *)
Definition get_available_cpus (cpumask : ptr) : prog Z :=
  match cpumask with
  | Some p => numa_bitmask_weight p
  | None =>
      '(ret, cpuset) ← sched_getaffinity CPU_ZERO;
      (if ret <? 0 then fatal msg_getaffinity_m else mret tt);;
      mret (CPU_COUNT cpuset)
  end.

(** The loop of [cpu_for_thread_sp], with [n] ids left to visit:
    [for (...; i < max_cpus; i++)] on [unsigned int] counters.  It yields
    the [i] of [return i], or [None] when the loop runs to its end. *)
Fixpoint cpu_for_thread_sp_loop (n : nat) (cpumask : loc) (m i cpu : Z)
  : prog (option Z) :=
  match n with
  | O => mret None
  | S n' =>
      b ← numa_bitmask_isbitset cpumask i;
      if b : bool then
        if cpu =? m then mret (Some i)
        else cpu_for_thread_sp_loop n' cpumask m (to_uint (i + 1))
                                    (to_uint (cpu + 1))
      else cpu_for_thread_sp_loop n' cpumask m (to_uint (i + 1)) cpu
  end.

(** [int cpu_for_thread_sp (int thread_num, int max_cpus,
                             struct bitmask *cpumask)].
    [m], [cpu], [i] and [num_cpus] are [unsigned int]: [thread_num] and
    [max_cpus] are converted where they meet them, and [i] is converted
    back to [int] by [return i]. *)
Definition cpu_for_thread_sp (thread_num max_cpus : Z) (cpumask : loc)
  : prog Z :=
  num_cpus ← numa_bitmask_weight cpumask;
  (if num_cpus =? 0 then fatal msg_no_cpus else mret tt);;
  m ← urem (to_uint thread_num) num_cpus;
  r ← cpu_for_thread_sp_loop (Z.to_nat (to_uint max_cpus)) cpumask m 0 0;
  match r : option Z with
  | Some i => mret (to_int i)
  | None => warn msg_bug;; mret 0
  end.

(** The loop of [cpu_for_thread_ua], with [n] ids left to visit; all the
    counters are [int], and [i < max_cpus <= INT_MAX] keeps [i++] and
    [cpu++] from overflowing. *)
Fixpoint cpu_for_thread_ua_loop (n : nat) (cpuset : cpu_set_t) (m i cpu : Z)
  : prog (option Z) :=
  match n with
  | O => mret None
  | S n' =>
      if CPU_ISSET i cpuset then
        if cpu =? m then mret (Some i)
        else cpu_for_thread_ua_loop n' cpuset m (i + 1) (cpu + 1)
      else cpu_for_thread_ua_loop n' cpuset m (i + 1) cpu
  end.

(** [int cpu_for_thread_ua (int thread_num, int max_cpus)] *)
Definition cpu_for_thread_ua (thread_num max_cpus : Z) : prog Z :=
  '(res, cpuset) ← sched_getaffinity CPU_ZERO;
  (if negb (res =? 0) then fatal msg_getaffinity_s else mret tt);;
  let num_cpus := CPU_COUNT cpuset in
  m ← srem thread_num num_cpus;
  r ← cpu_for_thread_ua_loop (Z.to_nat max_cpus) cpuset m 0 0;
  match r : option Z with
  | Some i => mret i
  | None => warn msg_bug;; mret 0
  end.

(** The loop of [use_current_cpuset], with [n] ids left to visit.  The
    second test of [||] is made only when the first one fails. *)
Fixpoint use_current_cpuset_loop (n : nat) (i : Z) (cpumask curmask : loc)
  : prog unit :=
  match n with
  | O => mret tt
  | S n' =>
      user ← numa_bitmask_isbitset cpumask i;
      drop ← (if negb user then mret true
              else env ← numa_bitmask_isbitset curmask i; mret (negb env));
      (if drop : bool then numa_bitmask_clearbit cpumask i else mret tt);;
      use_current_cpuset_loop n' (i + 1) cpumask curmask
  end.

(** [static void use_current_cpuset (int max_cpus, struct bitmask *cpumask)] *)
Definition use_current_cpuset (max_cpus : Z) (cpumask : loc) : prog unit :=
  curmask ← numa_allocate_cpumask;
  numa_sched_getaffinity curmask;;
  use_current_cpuset_loop (Z.to_nat max_cpus) 0 cpumask curmask;;
  numa_bitmask_free curmask.

Section Parser.

(** libnuma's parser of CPU lists, which this repository only calls: the
    bits of the mask it builds from a string, or [None] when it returns
    [NULL]. *)
Variable cpustring_bits : string -> option bitmask.

(** [numa_parse_cpustring_all (str)]: a new mask holding the parsed bits,
    or [NULL]. *)
Definition numa_parse_cpustring_all (str : string) : prog ptr := fun w =>
  match cpustring_bits str with
  | Some bits =>
      let p := fresh (dom (heap w)) in
      Returns (Some p) (set_heap (<[p := bits]> (heap w)) w)
  | None => Returns None w
  end.

(** [int parse_cpumask (char *str, int max_cpus, struct bitmask **cpumask)] *)
Definition parse_cpumask (str : string) (max_cpus : Z) (cpumask : addr)
  : prog Z :=
  mask ← numa_parse_cpustring_all str;
  match mask : ptr with
  | None => mret (- ENOMEM)
  | Some mask =>
      wt ← numa_bitmask_weight mask;
      if (wt : Z) =? 0 then
        numa_bitmask_free mask;;
        store cpumask None;;
        mret 0
      else
        (if strchr str "!"%char || strchr str "+"%char
         then use_current_cpuset max_cpus mask else mret tt);;
        store cpumask (Some mask);;
        mret 0
  end.

End Parser.

(** What the loop of [use_current_cpuset] leaves in the caller's mask,
    round by round, when the environment's mask holds [A]. *)
Fixpoint reconcile_loop (n : nat) (i : Z) (M A : bitmask) : bitmask :=
  match n with
  | O => M
  | S n' =>
      reconcile_loop n' (i + 1)
        (if negb (isbitset M i) || negb (isbitset A i)
         then clearbit M i else M) A
  end.

(** The mask [use_current_cpuset (max_cpus, ...)] makes of [M] when the
    environment's mask holds [A]. *)
Definition reconciled (max_cpus : Z) (M A : bitmask) : bitmask :=
  reconcile_loop (Z.to_nat max_cpus) 0 M A.

(** ** [numa_initialize] *)

(** The two static variables of [numa_initialize], which are 0 when the
    program starts, and the number of calls libnuma's [numa_available] has
    received so far. *)
Record numa_static : Type := NumaStatic {
  is_initialized : Z;
  numa : Z;
  available_calls : nat
}.

Definition numa_static_start : numa_static := NumaStatic 0 0 0.

Section NumaInitialize.

(** Modelled from the spec: libnuma's [numa_available], "is NUMA-style
    topology information available"; the answer to its call number [k],
    which is -1 when it is not. *)
Variable numa_available : nat -> Z.

(** [int numa_initialize (void)] *)
Definition numa_initialize (s : numa_static) : Z * numa_static :=
  if is_initialized s =? 1 then (numa s, s)
  else
    let answer := numa_available (available_calls s) in
    let numa' := if negb (answer =? -1) then 1 else numa s in
    (numa', NumaStatic 1 numa' (S (available_calls s))).

(** [n] calls of [numa_initialize] in a row: what they return, in order,
    and the static variables after the last one. *)
Fixpoint numa_initialize_times (n : nat) (s : numa_static)
  : list Z * numa_static :=
  match n with
  | O => ([], s)
  | S n' =>
      let '(r, s') := numa_initialize s in
      let '(rs, s'') := numa_initialize_times n' s' in
      (r :: rs, s'')
  end.

End NumaInitialize.

(** ** Sample inputs *)

(** The mask {1,2,4,5} of capacity 8. *)
Definition mask_1245 : bitmask :=
  [false; true; true; false; true; true; false; false].

(** A mask whose only member is CPU 5. *)
Definition mask_5 : bitmask := [false; false; false; false; false; true].

(** A mask of capacity 8 without members. *)
Definition mask_none : bitmask := replicate 8 false.

(** A world with one libnuma mask, at address 1; the process may run on
    CPUs 0, 1 and 4. *)
Definition world_with (M : bitmask) : world :=
  World {[ 1%positive := M ]} ∅
        [true; true; false; false; true; false; false; false]
        (Some [true; true; false; false; true]) [].

(** * Proofs *)

(** ** C integers *)

Lemma to_uint_range z : 0 <= to_uint z < UINT_MOD.
Proof. unfold to_uint, UINT_MOD. apply Z.mod_pos_bound. lia. Qed.

Lemma to_uint_small z : 0 <= z < UINT_MOD -> to_uint z = z.
Proof. intros H. unfold to_uint. now apply Z.mod_small. Qed.

Lemma to_uint_nonneg_int z : 0 <= z -> is_int z -> to_uint z = z.
Proof.
  unfold is_int, INT_MAX. intros H0 [_ H1]. apply to_uint_small.
  unfold UINT_MOD. lia.
Qed.

Lemma to_int_small z : 0 <= z <= INT_MAX -> to_int z = z.
Proof.
  intros H. unfold to_int.
  rewrite Z.mod_small by (unfold INT_MAX, UINT_MOD in *; lia).
  destruct (Z.leb_spec z INT_MAX); lia.
Qed.

Ltac int_range := unfold is_int, INT_MIN, INT_MAX; lia.

(** ** Bit masks *)

Section MaskFacts.

Implicit Types (bm : bitmask) (c i : Z).

Lemma isbitset_lookup bm c :
  isbitset bm c = true <-> 0 <= c /\ bm !! Z.to_nat c = Some true.
Proof.
  unfold isbitset. destruct (Z.ltb_spec c 0) as [Hc|Hc].
  - split; [discriminate | lia].
  - destruct (bm !! Z.to_nat c) as [[]|]; simpl; split; intros H;
      try discriminate; try (split; [lia | reflexivity]);
      destruct H as [_ H]; congruence.
Qed.

Lemma isbitset_capacity bm c :
  isbitset bm c = true -> 0 <= c < Z.of_nat (length bm).
Proof.
  intros [Hc Hl]%isbitset_lookup. apply lookup_lt_Some in Hl. lia.
Qed.

Lemma isbitset_clearbit bm n c :
  isbitset (clearbit bm n) c = if c =? n then false else isbitset bm c.
Proof.
  unfold clearbit, isbitset, bitmask in *.
  destruct (Z.eqb_spec c n) as [Heq|Hne], (Z.ltb_spec n 0) as [Hn|Hn],
    (Z.ltb_spec c 0) as [Hc|Hc]; try reflexivity; try lia.
  - subst c. destruct (decide (Z.to_nat n < length bm)%nat) as [Hlt|Hge].
    + now rewrite list_lookup_insert_eq.
    + rewrite list_insert_ge by lia.
      now rewrite lookup_ge_None_2 by lia.
  - rewrite list_lookup_insert_ne by lia. reflexivity.
Qed.

Lemma weight_nonneg bm : 0 <= weight bm.
Proof. induction bm as [|[] bm IH]; simpl; lia. Qed.

Lemma weight_le_capacity bm : 0 <= weight bm <= Z.of_nat (length bm).
Proof. induction bm as [|[] bm IH]; simpl; lia. Qed.

(** The weight counts the members. *)
Lemma weight_members_from i bm :
  weight bm = Z.of_nat (length (members_from i bm)).
Proof.
  revert i. induction bm as [|[] bm IH]; intros i; simpl.
  - reflexivity.
  - rewrite (IH (i + 1)). lia.
  - rewrite (IH (i + 1)). lia.
Qed.

Lemma weight_members bm : weight bm = Z.of_nat (length (members bm)).
Proof. apply weight_members_from. Qed.

Lemma elem_of_members_from i bm c :
  c ∈ members_from i bm <-> i <= c /\ bm !! Z.to_nat (c - i) = Some true.
Proof.
  revert i. induction bm as [|b bm IH]; intros i; simpl.
  - rewrite elem_of_nil. split; [tauto | intros [_ H]; discriminate].
  - assert (Hshift : forall d, i + 1 <= d ->
              (b :: bm) !! Z.to_nat (d - i) = bm !! Z.to_nat (d - (i + 1))).
    { intros d Hd. replace (Z.to_nat (d - i)) with (S (Z.to_nat (d - (i + 1))))
        by lia. reflexivity. }
    destruct b.
    + rewrite elem_of_cons, IH. split.
      * intros [->|[Hle Hl]].
        -- split; [lia|]. now rewrite Z.sub_diag.
        -- split; [lia|]. now rewrite Hshift.
      * intros [Hle Hl]. destruct (Z.eq_dec c i) as [->|Hne]; [now left|].
        right. split; [lia|]. rewrite <- Hshift; [assumption | lia].
    + rewrite IH. split.
      * intros [Hle Hl]. split; [lia|]. now rewrite Hshift.
      * intros [Hle Hl]. destruct (Z.eq_dec c i) as [->|Hne].
        -- rewrite Z.sub_diag in Hl. discriminate.
        -- split; [lia|]. rewrite <- Hshift; [assumption | lia].
Qed.

(** [members] lists exactly the ids whose bit is set... *)
Lemma elem_of_members bm c : c ∈ members bm <-> isbitset bm c = true.
Proof.
  unfold members. rewrite elem_of_members_from, isbitset_lookup.
  now rewrite Z.sub_0_r.
Qed.

Lemma members_from_lower i bm :
  Forall (fun c => i <= c) (members_from i bm).
Proof.
  apply Forall_forall. intros c Hc. now apply elem_of_members_from in Hc.
Qed.

(** ... in strictly ascending order. *)
Lemma members_from_sorted i bm : StronglySorted Z.lt (members_from i bm).
Proof.
  revert i. induction bm as [|b bm IH]; intros i; simpl.
  - constructor.
  - destruct b; [|apply IH]. constructor; [apply IH|].
    eapply Forall_impl; [apply (members_from_lower (i + 1))|].
    simpl. intros c Hc. lia.
Qed.

Lemma members_sorted bm : StronglySorted Z.lt (members bm).
Proof. apply members_from_sorted. Qed.

(** The members of a bit-vector of length [max_cpus] are CPU ids in
    [0, max_cpus). *)
Lemma members_below_capacity bm (max_cpus : Z) :
  Z.of_nat (length bm) = max_cpus ->
  Forall (fun c => 0 <= c < max_cpus) (members bm).
Proof.
  intros Hlen. apply Forall_forall. intros c Hc.
  apply elem_of_members, isbitset_capacity in Hc. lia.
Qed.

End MaskFacts.

(** ** What a scan of consecutive ids meets *)

Section Scan.

Implicit Types (bm : bitmask) (c i : Z) (n : nat).

Lemma members_in_0 bm i : members_in bm i 0 = [].
Proof. reflexivity. Qed.

Lemma members_in_S bm i n :
  members_in bm i (S n) =
  if isbitset bm i then i :: members_in bm (i + 1) n
  else members_in bm (i + 1) n.
Proof.
  unfold members_in. rewrite seqZ_cons by lia.
  replace (Z.pred (Z.of_nat (S n))) with (Z.of_nat n) by lia.
  replace (Z.succ i) with (i + 1) by lia.
  destruct (isbitset bm i) eqn:Hb.
  - now rewrite filter_cons_True.
  - rewrite filter_cons_False; [reflexivity | congruence].
Qed.

Lemma members_in_app bm i n1 n2 :
  members_in bm i (n1 + n2) =
  members_in bm i n1 ++ members_in bm (i + Z.of_nat n1) n2.
Proof.
  unfold members_in. rewrite Nat2Z.inj_add, seqZ_app by lia.
  apply filter_app.
Qed.

Lemma elem_of_members_in bm i n c :
  c ∈ members_in bm i n <->
  isbitset bm c = true /\ i <= c < i + Z.of_nat n.
Proof. unfold members_in. now rewrite list_elem_of_filter, elem_of_seqZ. Qed.

Lemma members_in_none bm i n :
  (forall c, i <= c < i + Z.of_nat n -> isbitset bm c = false) ->
  members_in bm i n = [].
Proof.
  intros Hnone. apply elem_of_nil_inv. intros c Hc.
  apply elem_of_members_in in Hc as [Hset Hrange].
  rewrite (Hnone c Hrange) in Hset. discriminate.
Qed.

Lemma isbitset_app_r pre bm :
  isbitset (pre ++ bm) (Z.of_nat (length pre)) = default false (head bm).
Proof.
  unfold isbitset, bitmask in *.
  destruct (Z.ltb_spec (Z.of_nat (length pre)) 0); [lia|].
  rewrite Nat2Z.id, lookup_app_r, Nat.sub_diag by lia.
  now destruct bm.
Qed.

Lemma members_in_suffix pre bm :
  members_in (pre ++ bm) (Z.of_nat (length pre)) (length bm) =
  members_from (Z.of_nat (length pre)) bm.
Proof.
  revert pre. induction bm as [|b bm IH]; intros pre; [reflexivity|].
  cbn [length members_from]. rewrite members_in_S, isbitset_app_r. simpl.
  specialize (IH (pre ++ [b])).
  rewrite <- app_assoc, length_app in IH. simpl in IH.
  replace (Z.of_nat (length pre + 1)) with (Z.of_nat (length pre) + 1)
    in IH by lia.
  rewrite IH. reflexivity.
Qed.

(** A scan of the whole capacity meets every member. *)
Lemma members_in_capacity bm : members_in bm 0 (length bm) = members bm.
Proof. apply (members_in_suffix [] bm). Qed.

(** So does a scan of the ids below [k], when every member is below [k]. *)
Lemma members_in_extend bm n d :
  (forall c, Z.of_nat n <= c < Z.of_nat n + Z.of_nat d ->
             isbitset bm c = false) ->
  members_in bm 0 (n + d) = members_in bm 0 n.
Proof.
  intros Hnone. rewrite members_in_app, (members_in_none bm (0 + _)).
  - apply app_nil_r.
  - intros c Hc. apply Hnone. lia.
Qed.

Lemma members_in_below bm k :
  Forall (fun c => 0 <= c < k) (members bm) ->
  members_in bm 0 (Z.to_nat k) = members bm.
Proof.
  intros Hall. rewrite <- members_in_capacity.
  destruct (Nat.le_ge_cases (Z.to_nat k) (length bm)) as [Hle|Hge].
  - apply Nat.le_exists_sub in Hle as (d & -> & _).
    rewrite (Nat.add_comm d), members_in_extend; [reflexivity|].
    intros c Hc. destruct (isbitset bm c) eqn:Hset; [|reflexivity].
    apply elem_of_members in Hset.
    rewrite Forall_forall in Hall. specialize (Hall c Hset). lia.
  - apply Nat.le_exists_sub in Hge as (d & -> & _).
    rewrite (Nat.add_comm d), members_in_extend; [reflexivity|].
    intros c Hc. destruct (isbitset bm c) eqn:Hset; [|reflexivity].
    apply isbitset_capacity in Hset. lia.
Qed.

End Scan.

(** ** Running programs *)

Lemma run_bind {A B : Type} (c : prog A) (f : A -> prog B) (w : world) :
  (c ≫= f) w =
  match c w with
  | Returns a w' => f a w'
  | Exits d w' => Exits d w'
  | Undefined ub => Undefined ub
  end.
Proof. reflexivity. Qed.

Lemma run_ret {A : Type} (a : A) (w : world) :
  (mret a : prog A) w = Returns a w.
Proof. reflexivity. Qed.

Lemma run_read_mask w p bm :
  heap w !! p = Some bm -> read_mask p w = Returns bm w.
Proof. intros H. unfold read_mask. now rewrite H. Qed.

Lemma run_weight w p bm :
  heap w !! p = Some bm -> numa_bitmask_weight p w = Returns (weight bm) w.
Proof.
  intros H. unfold numa_bitmask_weight.
  now rewrite run_bind, (run_read_mask _ _ _ H).
Qed.

Lemma run_isbitset w p bm n :
  heap w !! p = Some bm ->
  numa_bitmask_isbitset p n w = Returns (isbitset bm n) w.
Proof.
  intros H. unfold numa_bitmask_isbitset.
  now rewrite run_bind, (run_read_mask _ _ _ H).
Qed.

Lemma run_clearbit w p bm n :
  heap w !! p = Some bm ->
  numa_bitmask_clearbit p n w =
  Returns tt (set_heap (<[p := clearbit bm n]> (heap w)) w).
Proof.
  intros H. unfold numa_bitmask_clearbit.
  now rewrite run_bind, (run_read_mask _ _ _ H).
Qed.

Lemma run_free w p bm :
  heap w !! p = Some bm ->
  numa_bitmask_free p w = Returns tt (set_heap (delete p (heap w)) w).
Proof.
  intros H. unfold numa_bitmask_free.
  now rewrite run_bind, (run_read_mask _ _ _ H).
Qed.

(** ** The scan of [cpu_for_thread_sp] *)

Section SpecificMask.

Variables (w : world) (cpumask : loc) (M : bitmask).
Hypothesis Hmask : heap w !! cpumask = Some M.

(** With [cpu] members counted so far, the loop returns the member number
    [m - cpu] of those it has yet to meet, if there is one. *)
Lemma cpu_for_thread_sp_loop_scan n m i cpu :
  0 <= i -> i + Z.of_nat n < UINT_MOD ->
  0 <= cpu <= m -> m < UINT_MOD ->
  cpu_for_thread_sp_loop n cpumask m i cpu w =
  Returns (members_in M i n !! Z.to_nat (m - cpu)) w.
Proof.
  revert i cpu. induction n as [|n IH]; intros i cpu Hi Hn Hcpu Hm.
  - reflexivity.
  - cbn [cpu_for_thread_sp_loop].
    rewrite run_bind, (run_isbitset _ _ _ _ Hmask), members_in_S.
    rewrite (to_uint_small (i + 1)) by lia.
    destruct (isbitset M i).
    + destruct (Z.eqb_spec cpu m) as [->|Hne].
      * now rewrite Z.sub_diag.
      * rewrite (to_uint_small (cpu + 1)), IH by lia.
        replace (Z.to_nat (m - cpu)) with (S (Z.to_nat (m - (cpu + 1))))
          by lia.
        reflexivity.
    + now rewrite IH by lia.
Qed.

(** What [cpu_for_thread_sp] does for a mask of weight at least 1, in terms
    of the members the scan of [max_cpus] ids meets. *)
Lemma cpu_for_thread_sp_run thread_num max_cpus :
  1 <= weight M ->
  cpu_for_thread_sp thread_num max_cpus cpumask w =
  match members_in M 0 (Z.to_nat (to_uint max_cpus))
        !! Z.to_nat (to_uint thread_num mod weight M) with
  | Some i => Returns (to_int i) w
  | None => Returns 0 (log_stderr msg_bug w)
  end.
Proof.
  intros HN. unfold cpu_for_thread_sp.
  rewrite run_bind, (run_weight _ _ _ Hmask).
  destruct (Z.eqb_spec (weight M) 0) as [H0|_]; [lia|].
  rewrite run_bind, run_ret, run_bind. unfold urem.
  destruct (Z.eqb_spec (weight M) 0) as [H0|_]; [lia|].
  rewrite run_ret, run_bind.
  pose proof (to_uint_range thread_num) as Ht.
  pose proof (to_uint_range max_cpus) as Hmax.
  pose proof (Z.mod_pos_bound (to_uint thread_num) (weight M)) as Hm.
  pose proof (Z.mod_le (to_uint thread_num) (weight M)) as Hle.
  rewrite cpu_for_thread_sp_loop_scan by lia.
  rewrite Z.sub_0_r. destruct (members_in _ _ _ !! _); reflexivity.
Qed.

End SpecificMask.

(** ** Strategy SP: [cpu_for_thread_sp] *)

(** The member that [cpu_for_thread_sp] picks when every member of the mask
    is below [max_cpus]: the scan then meets all of them. *)
Lemma cpu_for_thread_sp_pick (w : world) (cpumask : loc) (M : bitmask)
    (thread_num max_cpus : Z) :
  heap w !! cpumask = Some M ->
  1 <= weight M ->
  Forall (fun c => 0 <= c < max_cpus) (members M) ->
  is_int max_cpus ->
  exists c,
    members M !! Z.to_nat (to_uint thread_num mod weight M) = Some c /\
    cpu_for_thread_sp_loop (Z.to_nat (to_uint max_cpus)) cpumask
      (to_uint thread_num mod weight M) 0 0 w = Returns (Some c) w /\
    cpu_for_thread_sp thread_num max_cpus cpumask w = Returns c w.
Proof.
  intros Hmask HN Hall Hint.
  pose proof (to_uint_range thread_num) as Ht.
  pose proof (Z.mod_pos_bound (to_uint thread_num) (weight M)) as Hm.
  pose proof (Z.mod_le (to_uint thread_num) (weight M)) as Hle.
  destruct (lookup_lt_is_Some_2 (members M)
              (Z.to_nat (to_uint thread_num mod weight M))) as [c Hc].
  { rewrite weight_members in *. lia. }
  assert (Hcmax : 0 <= c < max_cpus).
  { rewrite Forall_forall in Hall. apply Hall.
    eapply list_elem_of_lookup_2, Hc. }
  assert (Hmax : to_uint max_cpus = max_cpus).
  { apply to_uint_nonneg_int; [lia | assumption]. }
  exists c. split; [assumption|]. split.
  - rewrite (cpu_for_thread_sp_loop_scan w cpumask M Hmask)
      by (rewrite ?Hmax; unfold is_int, INT_MAX, UINT_MOD in *; lia).
    now rewrite Z.sub_0_r, Hmax, members_in_below, Hc.
  - rewrite (cpu_for_thread_sp_run w cpumask M Hmask) by assumption.
    rewrite Hmax, members_in_below, Hc by assumption.
    rewrite to_int_small; [reflexivity|]. unfold is_int in Hint. lia.
Qed.

(** The placement of five threads on the mask {1,2,4,5} with 8 CPUs. *)
Example cpu_for_thread_sp_1245 :
  map (fun t => cpu_for_thread_sp t 8 1%positive (world_with mask_1245))
      [0; 1; 2; 3; 4] =
  map (fun c => Returns c (world_with mask_1245)) [1; 2; 4; 5; 1].
Proof. reflexivity. Qed.

(** C1: for a mask M of cardinality N >= 1 whose members all lie in
    [0, max_cpus) and a non-negative thread index t,
    [cpu_for_thread_sp t max_cpus M] returns the (t mod N)-th member of M in
    ascending CPU-id order; for t = 0 that is the lowest-numbered member. *)
Theorem cpu_for_thread_sp_nth_member (w : world) (cpumask : loc)
    (M : bitmask) (thread_num max_cpus : Z) :
  heap w !! cpumask = Some M ->
  1 <= weight M ->
  Forall (fun c => 0 <= c < max_cpus) (members M) ->
  is_int max_cpus -> is_int thread_num -> 0 <= thread_num ->
  (exists c,
      members M !! Z.to_nat (thread_num mod weight M) = Some c /\
      cpu_for_thread_sp thread_num max_cpus cpumask w = Returns c w) /\
  (exists c0,
      cpu_for_thread_sp 0 max_cpus cpumask w = Returns c0 w /\
      isbitset M c0 = true /\
      forall c, isbitset M c = true -> c0 <= c).
Proof.
  intros Hmask HN Hall Hmax Ht Ht0. split.
  - destruct (cpu_for_thread_sp_pick w cpumask M thread_num max_cpus)
      as (c & Hc & _ & Hrun); try assumption.
    rewrite (to_uint_nonneg_int thread_num) in Hc by assumption.
    now exists c.
  - destruct (cpu_for_thread_sp_pick w cpumask M 0 max_cpus)
      as (c0 & Hc0 & _ & Hrun); try assumption.
    exists c0. split; [assumption|].
    change (to_uint 0 mod weight M) with (0 mod weight M) in Hc0.
    rewrite Z.mod_0_l in Hc0 by lia. simpl in Hc0.
    pose proof (members_sorted M) as Hsorted.
    destruct (members M) as [|c1 rest] eqn:Hmem; [discriminate|].
    injection Hc0 as ->. split.
    + apply elem_of_members. rewrite Hmem. apply list_elem_of_here.
    + intros c Hc. apply elem_of_members in Hc. rewrite Hmem in Hc.
      apply elem_of_cons in Hc as [->|Hc]; [lia|].
      apply StronglySorted_inv in Hsorted as [_ Hlt].
      rewrite Forall_forall in Hlt. specialize (Hlt c Hc). lia.
Qed.

Lemma cpu_for_thread_sp_nth_member_witness :
  (heap (world_with mask_1245) !! 1%positive = Some mask_1245 /\
   1 <= weight mask_1245 /\
   Forall (fun c => 0 <= c < 8) (members mask_1245) /\
   is_int 8 /\ is_int 6 /\ 0 <= 6) /\
  (exists c,
      members mask_1245 !! Z.to_nat (6 mod weight mask_1245) = Some c /\
      cpu_for_thread_sp 6 8 1%positive (world_with mask_1245) =
        Returns c (world_with mask_1245)) /\
  (exists c0,
      cpu_for_thread_sp 0 8 1%positive (world_with mask_1245) =
        Returns c0 (world_with mask_1245) /\
      isbitset mask_1245 c0 = true /\
      forall c, isbitset mask_1245 c = true -> c0 <= c).
Proof.
  assert (Hw : heap (world_with mask_1245) !! 1%positive = Some mask_1245)
    by reflexivity.
  assert (HN : 1 <= weight mask_1245) by (simpl; lia).
  assert (Hall : Forall (fun c => 0 <= c < 8) (members mask_1245))
    by (repeat constructor; lia).
  assert (H8 : is_int 8) by int_range.
  assert (H6 : is_int 6) by int_range.
  assert (H0 : 0 <= 6) by lia.
  split; [tauto|].
  exact (cpu_for_thread_sp_nth_member (world_with mask_1245) 1%positive
           mask_1245 6 8 Hw HN Hall H8 H6 H0).
Defined.

(** C2: for a mask M of cardinality N >= 1, a bit-vector of length
    [max_cpus], and every thread index t, what [cpu_for_thread_sp] returns
    for t is a member of M, and it is what [cpu_for_thread_sp] returns for
    t + N: the placement is periodic with period N. *)
Theorem cpu_for_thread_sp_round_robin (w : world) (cpumask : loc)
    (M : bitmask) (thread_num max_cpus : Z) :
  heap w !! cpumask = Some M ->
  Z.of_nat (length M) = max_cpus ->
  1 <= weight M ->
  is_int max_cpus -> is_int thread_num -> 0 <= thread_num ->
  (exists c,
      cpu_for_thread_sp thread_num max_cpus cpumask w = Returns c w /\
      isbitset M c = true) /\
  cpu_for_thread_sp (thread_num + weight M) max_cpus cpumask w =
    cpu_for_thread_sp thread_num max_cpus cpumask w.
Proof.
  intros Hmask Hlen HN Hmax Ht Ht0. split.
  - destruct (cpu_for_thread_sp_pick w cpumask M thread_num max_cpus)
      as (c & Hc & _ & Hrun); try assumption;
      [now apply members_below_capacity|].
    exists c. split; [assumption|].
    apply elem_of_members. eapply list_elem_of_lookup_2, Hc.
  - pose proof (weight_le_capacity M) as Hcap.
    rewrite !(cpu_for_thread_sp_run w cpumask M Hmask) by assumption.
    rewrite (to_uint_nonneg_int thread_num) by assumption.
    rewrite (to_uint_small (thread_num + weight M))
      by (unfold is_int, INT_MAX, UINT_MOD in *; lia).
    replace (thread_num + weight M) with (thread_num + 1 * weight M) by lia.
    now rewrite Z_mod_plus_full.
Qed.

Lemma cpu_for_thread_sp_round_robin_witness :
  (heap (world_with mask_1245) !! 1%positive = Some mask_1245 /\
   Z.of_nat (length mask_1245) = 8 /\
   1 <= weight mask_1245 /\ is_int 8 /\ is_int 3 /\ 0 <= 3) /\
  (exists c,
      cpu_for_thread_sp 3 8 1%positive (world_with mask_1245) =
        Returns c (world_with mask_1245) /\
      isbitset mask_1245 c = true) /\
  cpu_for_thread_sp (3 + weight mask_1245) 8 1%positive
      (world_with mask_1245) =
    cpu_for_thread_sp 3 8 1%positive (world_with mask_1245).
Proof.
  assert (Hw : heap (world_with mask_1245) !! 1%positive = Some mask_1245)
    by reflexivity.
  assert (Hlen : Z.of_nat (length mask_1245) = 8) by reflexivity.
  assert (HN : 1 <= weight mask_1245) by (simpl; lia).
  assert (H8 : is_int 8) by int_range.
  assert (H3 : is_int 3) by int_range.
  assert (H0 : 0 <= 3) by lia.
  split; [tauto|].
  exact (cpu_for_thread_sp_round_robin (world_with mask_1245) 1%positive
           mask_1245 3 8 Hw Hlen HN H8 H3 H0).
Defined.

(** C3: for a mask of cardinality 0, [cpu_for_thread_sp] ends the process
    in [fatal] with the "No allowable cpus" diagnostic, whatever the thread
    index, and returns no value. *)
Theorem cpu_for_thread_sp_no_cpus (w : world) (cpumask : loc) (M : bitmask)
    (thread_num max_cpus : Z) :
  heap w !! cpumask = Some M ->
  weight M = 0 ->
  cpu_for_thread_sp thread_num max_cpus cpumask w = Exits msg_no_cpus w /\
  forall v w', cpu_for_thread_sp thread_num max_cpus cpumask w <> Returns v w'.
Proof.
  intros Hmask HN.
  assert (Hrun : cpu_for_thread_sp thread_num max_cpus cpumask w =
                 Exits msg_no_cpus w).
  { unfold cpu_for_thread_sp.
    now rewrite run_bind, (run_weight _ _ _ Hmask), HN. }
  split; [assumption|]. intros v w'. rewrite Hrun. discriminate.
Qed.

Lemma cpu_for_thread_sp_no_cpus_witness :
  (heap (world_with mask_none) !! 1%positive = Some mask_none /\
   weight mask_none = 0) /\
  cpu_for_thread_sp 2 8 1%positive (world_with mask_none) =
    Exits msg_no_cpus (world_with mask_none) /\
  forall v w',
    cpu_for_thread_sp 2 8 1%positive (world_with mask_none) <> Returns v w'.
Proof.
  assert (Hw : heap (world_with mask_none) !! 1%positive = Some mask_none)
    by reflexivity.
  assert (HN : weight mask_none = 0) by reflexivity.
  split; [tauto|].
  exact (cpu_for_thread_sp_no_cpus (world_with mask_none) 1%positive
           mask_none 2 8 Hw HN).
Defined.

(** C5: in [cpu_for_thread_sp], whenever the cardinality N of the mask, a
    bit-vector of length [max_cpus], is at least 1, m = thread_num mod N is
    below N, the scan of the ids 0..max_cpus-1 returns a member of the
    mask, and the function returns it: it does not end in the fallback,
    which logs the warning and returns CPU 0. *)
Theorem cpu_for_thread_sp_scan_finds (w : world) (cpumask : loc)
    (M : bitmask) (thread_num max_cpus : Z) :
  heap w !! cpumask = Some M ->
  Z.of_nat (length M) = max_cpus ->
  1 <= weight M ->
  is_int max_cpus -> is_int thread_num ->
  let m := to_uint thread_num mod weight M in
  0 <= m < weight M /\
  (exists i,
      cpu_for_thread_sp_loop (Z.to_nat (to_uint max_cpus)) cpumask m 0 0 w =
        Returns (Some i) w /\
      isbitset M i = true /\
      cpu_for_thread_sp thread_num max_cpus cpumask w = Returns i w) /\
  cpu_for_thread_sp thread_num max_cpus cpumask w <>
    Returns 0 (log_stderr msg_bug w).
Proof.
  intros Hmask Hlen HN Hmax Ht m.
  destruct (cpu_for_thread_sp_pick w cpumask M thread_num max_cpus)
    as (c & Hc & Hloop & Hrun); try assumption;
    [now apply members_below_capacity|].
  split; [apply Z.mod_pos_bound; lia|]. split.
  - exists c. repeat split; try assumption.
    apply elem_of_members. eapply list_elem_of_lookup_2, Hc.
  - rewrite Hrun. intros Heq. injection Heq as _ Hlog.
    apply (f_equal (fun w' => length (stderr w'))) in Hlog.
    cbn [log_stderr stderr] in Hlog. rewrite length_app in Hlog.
    simpl in Hlog. lia.
Qed.

Lemma cpu_for_thread_sp_scan_finds_witness :
  (heap (world_with mask_1245) !! 1%positive = Some mask_1245 /\
   Z.of_nat (length mask_1245) = 8 /\
   1 <= weight mask_1245 /\ is_int 8 /\ is_int (-3)) /\
  let m := to_uint (-3) mod weight mask_1245 in
  0 <= m < weight mask_1245 /\
  (exists i,
      cpu_for_thread_sp_loop (Z.to_nat (to_uint 8)) 1%positive m 0 0
        (world_with mask_1245) = Returns (Some i) (world_with mask_1245) /\
      isbitset mask_1245 i = true /\
      cpu_for_thread_sp (-3) 8 1%positive (world_with mask_1245) =
        Returns i (world_with mask_1245)) /\
  cpu_for_thread_sp (-3) 8 1%positive (world_with mask_1245) <>
    Returns 0 (log_stderr msg_bug (world_with mask_1245)).
Proof.
  assert (Hw : heap (world_with mask_1245) !! 1%positive = Some mask_1245)
    by reflexivity.
  assert (Hlen : Z.of_nat (length mask_1245) = 8) by reflexivity.
  assert (HN : 1 <= weight mask_1245) by (simpl; lia).
  assert (H8 : is_int 8) by int_range.
  assert (H3 : is_int (-3)) by int_range.
  split; [tauto|].
  exact (cpu_for_thread_sp_scan_finds (world_with mask_1245) 1%positive
           mask_1245 (-3) 8 Hw Hlen HN H8 H3).
Defined.

(** ** Strategy UA: [cpu_for_thread_ua] *)

(** The running count starts at 0 and only grows: it never equals an [m]
    below it, and the scan runs to its end. *)
Lemma cpu_for_thread_ua_loop_miss (w : world) (cpuset : cpu_set_t) (n : nat)
    (m i cpu : Z) :
  m < cpu -> cpu_for_thread_ua_loop n cpuset m i cpu w = Returns None w.
Proof.
  revert i cpu. induction n as [|n IH]; intros i cpu Hlt; [reflexivity|].
  cbn [cpu_for_thread_ua_loop].
  destruct (CPU_ISSET i cpuset).
  - destruct (Z.eqb_spec cpu m) as [Heq|_]; [lia|]. apply IH. lia.
  - now apply IH.
Qed.

Lemma run_sched_getaffinity (w : world) (s cpuset : cpu_set_t) :
  sched_affinity w = Some s -> sched_getaffinity cpuset w = Returns (0, s) w.
Proof. intros H. unfold sched_getaffinity. now rewrite H. Qed.

(** C4: [cpu_for_thread_ua] does not test the cardinality N of the set the
    OS reports before it computes [thread_num % N]: when the set is empty
    the call runs into the division by zero, which is undefined behaviour,
    where [cpu_for_thread_sp] with an empty mask ends in [fatal] with its
    diagnostic. *)
Theorem cpu_for_thread_ua_empty_set (w : world) (cpuset : cpu_set_t)
    (thread_num max_cpus : Z) :
  sched_affinity w = Some cpuset ->
  CPU_COUNT cpuset = 0 ->
  cpu_for_thread_ua thread_num max_cpus w = Undefined DivisionByZero /\
  forall cpumask M,
    heap w !! cpumask = Some M -> weight M = 0 ->
    cpu_for_thread_sp thread_num max_cpus cpumask w = Exits msg_no_cpus w.
Proof.
  intros Hos HN. split.
  - unfold cpu_for_thread_ua.
    rewrite run_bind, (run_sched_getaffinity _ _ _ Hos).
    cbn [Z.eqb negb]. rewrite run_bind, run_ret, HN. reflexivity.
  - intros cpumask M Hmask HM. unfold cpu_for_thread_sp.
    now rewrite run_bind, (run_weight _ _ _ Hmask), HM.
Qed.

Lemma cpu_for_thread_ua_empty_set_witness :
  let w := World ∅ ∅ [] (Some CPU_ZERO) [] in
  (sched_affinity w = Some CPU_ZERO /\ CPU_COUNT CPU_ZERO = 0) /\
  cpu_for_thread_ua 5 8 w = Undefined DivisionByZero /\
  forall cpumask M,
    heap w !! cpumask = Some M -> weight M = 0 ->
    cpu_for_thread_sp 5 8 cpumask w = Exits msg_no_cpus w.
Proof.
  intros w.
  assert (Hos : sched_affinity w = Some CPU_ZERO) by reflexivity.
  assert (HN : CPU_COUNT CPU_ZERO = 0) by reflexivity.
  split; [tauto|].
  exact (cpu_for_thread_ua_empty_set w CPU_ZERO 5 8 Hos HN).
Defined.

(** C10: for a negative [thread_num] that is not a multiple of the
    cardinality N >= 1 of the set the OS reports, the remainder [m] of the
    signed division is negative, the running count never equals it, and
    [cpu_for_thread_ua] warns and returns 0, whatever the set holds. *)
Theorem cpu_for_thread_ua_negative (w : world) (cpuset : cpu_set_t)
    (thread_num max_cpus : Z) :
  sched_affinity w = Some cpuset ->
  1 <= CPU_COUNT cpuset ->
  thread_num < 0 ->
  ~ (CPU_COUNT cpuset | thread_num) ->
  Z.rem thread_num (CPU_COUNT cpuset) < 0 /\
  cpu_for_thread_ua thread_num max_cpus w = Returns 0 (log_stderr msg_bug w).
Proof.
  intros Hos HN Hneg Hndiv.
  assert (Hm : Z.rem thread_num (CPU_COUNT cpuset) < 0).
  { pose proof (Z.rem_nonpos thread_num (CPU_COUNT cpuset)) as Hle.
    pose proof (Z.rem_divide thread_num (CPU_COUNT cpuset)) as Hdiv.
    destruct (Z.eq_dec (Z.rem thread_num (CPU_COUNT cpuset)) 0) as [H0|H0].
    - exfalso. apply Hndiv, Hdiv; [lia | assumption].
    - lia. }
  split; [assumption|].
  unfold cpu_for_thread_ua.
  rewrite run_bind, (run_sched_getaffinity _ _ _ Hos).
  cbn [Z.eqb negb]. rewrite run_bind, run_ret, run_bind. unfold srem.
  destruct (Z.eqb_spec (CPU_COUNT cpuset) 0) as [H0|_]; [lia|].
  destruct (Z.eqb_spec (CPU_COUNT cpuset) (-1)) as [H1|_]; [lia|].
  rewrite andb_false_r, run_ret, run_bind.
  rewrite cpu_for_thread_ua_loop_miss by lia.
  reflexivity.
Qed.

Lemma cpu_for_thread_ua_negative_witness :
  (sched_affinity (world_with mask_1245) =
     Some [true; true; false; false; true] /\
   1 <= CPU_COUNT [true; true; false; false; true] /\
   -4 < 0 /\
   ~ (CPU_COUNT [true; true; false; false; true] | -4)) /\
  Z.rem (-4) (CPU_COUNT [true; true; false; false; true]) < 0 /\
  cpu_for_thread_ua (-4) 8 (world_with mask_1245) =
    Returns 0 (log_stderr msg_bug (world_with mask_1245)).
Proof.
  assert (Hos : sched_affinity (world_with mask_1245) =
                Some [true; true; false; false; true]) by reflexivity.
  assert (HN : 1 <= CPU_COUNT [true; true; false; false; true])
    by (simpl; lia).
  assert (Hneg : -4 < 0) by lia.
  assert (Hndiv : ~ (CPU_COUNT [true; true; false; false; true] | -4)).
  { intros [k Hk]. simpl in Hk. lia. }
  split; [tauto|].
  exact (cpu_for_thread_ua_negative (world_with mask_1245)
           [true; true; false; false; true] (-4) 8 Hos HN Hneg Hndiv).
Defined.

(** ** The CPU counter: [get_available_cpus] *)

Lemma weight_replicate_true (n : nat) :
  weight (replicate n true) = Z.of_nat n.
Proof.
  induction n as [|n IH]; [reflexivity|].
  simpl replicate. simpl weight. lia.
Qed.

Lemma weight_replicate_false (n : nat) : weight (replicate n false) = 0.
Proof. induction n as [|n IH]; [reflexivity|]. simpl. lia. Qed.

Lemma weight_singleton (n k : nat) :
  (k < n)%nat -> weight (<[k := true]> (replicate n false)) = 1.
Proof.
  revert k. induction n as [|n IH]; intros k Hk; [lia|].
  destruct k as [|k]; simpl.
  - rewrite weight_replicate_false. lia.
  - rewrite IH by lia. lia.
Qed.

(** C8: given a mask, [get_available_cpus] returns its population count,
    the number of its members: [n] for the full mask of capacity [n], 1 for
    a mask with one bit set.  Given [NULL], it returns the cardinality of
    the affinity set the OS reports for the calling thread, and ends the
    process in [fatal] when that query fails. *)
Theorem get_available_cpus_count (w : world) :
  (forall p M,
      heap w !! p = Some M ->
      get_available_cpus (Some p) w = Returns (weight M) w /\
      weight M = Z.of_nat (length (members M))) /\
  (forall p n,
      heap w !! p = Some (replicate n true) ->
      get_available_cpus (Some p) w = Returns (Z.of_nat n) w) /\
  (forall p n k,
      (k < n)%nat ->
      heap w !! p = Some (<[k := true]> (replicate n false)) ->
      get_available_cpus (Some p) w = Returns 1 w) /\
  (forall cpuset,
      sched_affinity w = Some cpuset ->
      get_available_cpus None w = Returns (CPU_COUNT cpuset) w) /\
  (sched_affinity w = None ->
   get_available_cpus None w = Exits msg_getaffinity_m w).
Proof.
  repeat split.
  - now apply run_weight.
  - apply weight_members.
  - intros p n Hmask. cbn [get_available_cpus].
    now rewrite (run_weight _ _ _ Hmask), weight_replicate_true.
  - intros p n k Hk Hmask. cbn [get_available_cpus].
    now rewrite (run_weight _ _ _ Hmask), weight_singleton.
  - intros cpuset Hos. cbn [get_available_cpus].
    now rewrite run_bind, (run_sched_getaffinity _ _ _ Hos).
  - intros Hos. cbn [get_available_cpus]. rewrite run_bind.
    unfold sched_getaffinity. now rewrite Hos.
Qed.

Lemma get_available_cpus_count_witness :
  get_available_cpus (Some 1%positive) (world_with mask_1245) =
    Returns 4 (world_with mask_1245) /\
  get_available_cpus None (world_with mask_1245) =
    Returns 3 (world_with mask_1245) /\
  get_available_cpus None (World ∅ ∅ [] None []) =
    Exits msg_getaffinity_m (World ∅ ∅ [] None []).
Proof.
  destruct (get_available_cpus_count (world_with mask_1245))
    as (Hmask & _ & _ & Hos & _).
  destruct (get_available_cpus_count (World ∅ ∅ [] None []))
    as (_ & _ & _ & _ & Hfail).
  split; [|split].
  - exact (proj1 (Hmask 1%positive mask_1245 eq_refl)).
  - exact (Hos [true; true; false; false; true] eq_refl).
  - exact (Hfail eq_refl).
Defined.

(** ** The reconciler: [use_current_cpuset] *)

Lemma set_heap_set_heap (h1 h2 : gmap loc bitmask) (w : world) :
  set_heap h1 (set_heap h2 w) = set_heap h1 w.
Proof. reflexivity. Qed.

Lemma heap_set_heap (h : gmap loc bitmask) (w : world) :
  heap (set_heap h w) = h.
Proof. reflexivity. Qed.

Lemma numa_affinity_set_heap (h : gmap loc bitmask) (w : world) :
  numa_affinity (set_heap h w) = numa_affinity w.
Proof. reflexivity. Qed.

Lemma set_heap_same (w : world) : set_heap (heap w) w = w.
Proof. now destruct w. Qed.

(** [n] rounds of the loop from id [i] on: the user's mask keeps a bit in
    [i, i+n) when the environment's mask has it too, and every other bit as
    it is; nothing else in the world changes. *)
Lemma use_current_cpuset_loop_and (n : nat) (i : Z) (cpumask curmask : loc)
    (w : world) (M A : bitmask) :
  heap w !! cpumask = Some M ->
  heap w !! curmask = Some A ->
  cpumask <> curmask ->
  exists M',
    use_current_cpuset_loop n i cpumask curmask w =
      Returns tt (set_heap (<[cpumask := M']> (heap w)) w) /\
    forall c,
      isbitset M' c =
      if (i <=? c) && (c <? i + Z.of_nat n)
      then isbitset M c && isbitset A c else isbitset M c.
Proof.
  revert i w M. induction n as [|n IH]; intros i w M Hmask Hcur Hne.
  - exists M. split.
    + cbn [use_current_cpuset_loop]. rewrite run_ret.
      now rewrite insert_id, set_heap_same.
    + intros c. destruct (Z.leb_spec i c), (Z.ltb_spec c (i + Z.of_nat 0));
        simpl; try reflexivity; lia.
  - cbn [use_current_cpuset_loop].
    rewrite run_bind, (run_isbitset _ _ _ _ Hmask), run_bind.
    assert (Hstep : forall w1 M1,
      heap w1 = <[cpumask := M1]> (heap w) ->
      set_heap (heap w1) w = w1 ->
      (forall c, isbitset M1 c =
                 if c =? i then isbitset M c && isbitset A c
                 else isbitset M c) ->
      exists M',
        use_current_cpuset_loop n (i + 1) cpumask curmask w1 =
          Returns tt (set_heap (<[cpumask := M']> (heap w)) w) /\
        forall c,
          isbitset M' c =
          if (i <=? c) && (c <? i + Z.of_nat (S n))
          then isbitset M c && isbitset A c else isbitset M c).
    { intros w1 M1 Hheap Hw1 Hbits.
      destruct (IH (i + 1) w1 M1) as (M' & Hrun & HM'); try assumption.
      - rewrite Hheap. apply lookup_insert_eq.
      - rewrite Hheap, lookup_insert_ne; assumption.
      - exists M'. split.
        + rewrite Hrun, <- Hw1, Hheap, set_heap_set_heap.
          cbn [heap set_heap]. now rewrite insert_insert_eq.
        + intros c. rewrite HM', !Hbits.
          destruct (Z.eqb_spec c i), (Z.leb_spec (i + 1) c),
            (Z.ltb_spec c (i + 1 + Z.of_nat n)), (Z.leb_spec i c),
            (Z.ltb_spec c (i + Z.of_nat (S n))); simpl;
            try reflexivity; lia. }
    destruct (isbitset M i) eqn:HMi; cbn [negb].
    + rewrite run_bind, (run_isbitset _ _ _ _ Hcur), run_ret.
      destruct (isbitset A i) eqn:HAi; cbn [negb].
      * rewrite run_bind, run_ret.
        apply (Hstep w M).
        -- now rewrite insert_id.
        -- apply set_heap_same.
        -- intros c. destruct (Z.eqb_spec c i) as [->|_]; [|reflexivity].
           now rewrite HMi, HAi.
      * rewrite run_bind, (run_clearbit _ _ _ _ Hmask).
        apply (Hstep _ (clearbit M i)); [reflexivity | reflexivity |].
        intros c. rewrite isbitset_clearbit.
        destruct (Z.eqb_spec c i) as [->|_]; [|reflexivity].
        now rewrite HMi, HAi.
    + rewrite run_ret, run_bind, (run_clearbit _ _ _ _ Hmask).
      apply (Hstep _ (clearbit M i)); [reflexivity | reflexivity |].
      intros c. rewrite isbitset_clearbit.
      destruct (Z.eqb_spec c i) as [->|_]; [|reflexivity].
      now rewrite HMi.
Qed.

(** C6: [use_current_cpuset] leaves in the caller's mask, for every CPU id
    [i] in [0, max_cpus), bit [i] set exactly when it was set both in that
    mask and in the affinity mask queried from the run-time environment; so
    the members of the result are members of the input.  The queried mask
    is freed, and nothing else changes. *)
Theorem use_current_cpuset_intersection (w : world) (cpumask : loc)
    (M : bitmask) (max_cpus : Z) :
  heap w !! cpumask = Some M ->
  exists M',
    use_current_cpuset max_cpus cpumask w =
      Returns tt (set_heap (<[cpumask := M']> (heap w)) w) /\
    (forall i, 0 <= i < max_cpus ->
       (isbitset M' i = true <->
        isbitset M i = true /\ isbitset (numa_affinity w) i = true)) /\
    (forall i, isbitset M' i = true -> isbitset M i = true).
Proof.
  intros Hmask. unfold use_current_cpuset.
  set (q := fresh (dom (heap w))).
  assert (Hq : heap w !! q = None).
  { apply not_elem_of_dom, is_fresh. }
  assert (Hne : cpumask <> q) by congruence.
  rewrite run_bind. unfold numa_allocate_cpumask. fold q.
  rewrite run_bind. unfold numa_sched_getaffinity.
  rewrite run_bind, (run_read_mask _ q (replicate _ false))
    by apply lookup_insert_eq.
  rewrite run_bind. unfold query_numa_affinity, write_mask.
  rewrite set_heap_set_heap, heap_set_heap, numa_affinity_set_heap.
  rewrite insert_insert_eq.
  set (w1 := set_heap (<[q := numa_affinity w]> (heap w)) w).
  destruct (use_current_cpuset_loop_and (Z.to_nat max_cpus) 0 cpumask q w1
              M (numa_affinity w)) as (M' & Hrun & HM').
  { subst w1. rewrite heap_set_heap. now rewrite lookup_insert_ne. }
  { subst w1. rewrite heap_set_heap. apply lookup_insert_eq. }
  { assumption. }
  exists M'. split; [|split].
  - rewrite run_bind, Hrun.
    rewrite (run_free _ q (numa_affinity w)).
    + subst w1. rewrite !heap_set_heap, !set_heap_set_heap.
      rewrite delete_insert_ne by congruence.
      now rewrite delete_insert_id.
    + subst w1. rewrite !heap_set_heap.
      rewrite lookup_insert_ne by congruence.
      apply lookup_insert_eq.
  - intros i Hi. rewrite HM'.
    destruct (Z.leb_spec 0 i),
      (Z.ltb_spec i (0 + Z.of_nat (Z.to_nat max_cpus))); try lia.
    simpl. apply andb_true_iff.
  - intros i. rewrite HM'.
    destruct ((0 <=? i) && (i <? 0 + Z.of_nat (Z.to_nat max_cpus)));
      [|tauto].
    now intros [H _]%andb_true_iff.
Qed.

Lemma use_current_cpuset_intersection_witness :
  heap (world_with mask_1245) !! 1%positive = Some mask_1245 /\
  exists M',
    use_current_cpuset 8 1%positive (world_with mask_1245) =
      Returns tt (set_heap (<[1%positive := M']>
                              (heap (world_with mask_1245)))
                           (world_with mask_1245)) /\
    (forall i, 0 <= i < 8 ->
       (isbitset M' i = true <->
        isbitset mask_1245 i = true /\
        isbitset (numa_affinity (world_with mask_1245)) i = true)) /\
    (forall i, isbitset M' i = true -> isbitset mask_1245 i = true).
Proof.
  assert (Hw : heap (world_with mask_1245) !! 1%positive = Some mask_1245)
    by reflexivity.
  split; [assumption|].
  exact (use_current_cpuset_intersection (world_with mask_1245) 1%positive
           mask_1245 8 Hw).
Defined.

(** ** The parser: [parse_cpumask] *)

Section ParserFacts.

Variable cpustring_bits : string -> option bitmask.

(** C7: for a CPU list whose parsed mask has no member, [parse_cpumask]
    returns 0 with [*cpumask] set to [NULL], and it has freed the mask
    that was allocated for it: the libnuma heap is as it was before the
    call. *)
Theorem parse_cpumask_empty (w : world) (str : string) (max_cpus : Z)
    (cpumask : addr) (bits : bitmask) :
  cpustring_bits str = Some bits ->
  weight bits = 0 ->
  exists w',
    parse_cpumask cpustring_bits str max_cpus cpumask w = Returns 0 w' /\
    cells w' !! cpumask = Some None /\
    heap w' = heap w /\
    w' = set_cells (<[cpumask := None]> (cells w)) w.
Proof.
  intros Hparse Hweight.
  exists (set_cells (<[cpumask := None]> (cells w)) w).
  split; [|split; [apply lookup_insert_eq | split; reflexivity]].
  unfold parse_cpumask, numa_parse_cpustring_all.
  rewrite run_bind, Hparse.
  set (p := fresh (dom (heap w))).
  assert (Hp : heap w !! p = None) by apply not_elem_of_dom, is_fresh.
  rewrite run_bind, (run_weight _ p bits) by apply lookup_insert_eq.
  rewrite Hweight. cbn [Z.eqb].
  rewrite run_bind, (run_free _ p bits) by apply lookup_insert_eq.
  rewrite heap_set_heap, set_heap_set_heap, delete_insert_id by assumption.
  now rewrite set_heap_same.
Qed.

(** C9: when libnuma's parser returns [NULL], [parse_cpumask] returns
    [-ENOMEM] and leaves the world as it is, [*cpumask] included. *)
Theorem parse_cpumask_enomem (w : world) (str : string) (max_cpus : Z)
    (cpumask : addr) :
  cpustring_bits str = None ->
  parse_cpumask cpustring_bits str max_cpus cpumask w =
    Returns (- ENOMEM) w /\
  forall w',
    parse_cpumask cpustring_bits str max_cpus cpumask w =
      Returns (- ENOMEM) w' ->
    cells w' !! cpumask = cells w !! cpumask.
Proof.
  intros Hparse.
  assert (Hrun : parse_cpumask cpustring_bits str max_cpus cpumask w =
                 Returns (- ENOMEM) w).
  { unfold parse_cpumask, numa_parse_cpustring_all.
    now rewrite run_bind, Hparse. }
  split; [assumption|].
  intros w' Hrun'. rewrite Hrun in Hrun'. now injection Hrun' as <-.
Qed.

End ParserFacts.

Lemma parse_cpumask_empty_witness :
  let parser := fun _ : string => Some mask_none in
  (parser EmptyString = Some mask_none /\ weight mask_none = 0) /\
  exists w',
    parse_cpumask parser EmptyString 8 7%positive (world_with mask_1245) =
      Returns 0 w' /\
    cells w' !! 7%positive = Some None /\
    heap w' = heap (world_with mask_1245) /\
    w' = set_cells (<[7%positive := None]> (cells (world_with mask_1245)))
                   (world_with mask_1245).
Proof.
  intros parser.
  assert (Hparse : parser EmptyString = Some mask_none) by reflexivity.
  assert (Hweight : weight mask_none = 0) by reflexivity.
  split; [tauto|].
  exact (parse_cpumask_empty parser (world_with mask_1245) EmptyString 8
           7%positive mask_none Hparse Hweight).
Defined.

Lemma parse_cpumask_enomem_witness :
  let parser := fun _ : string => @None bitmask in
  let w := set_cells {[ 7%positive := Some 1%positive ]}
                     (world_with mask_1245) in
  parser "1-2"%string = None /\
  parse_cpumask parser "1-2" 8 7%positive w = Returns (- ENOMEM) w /\
  forall w',
    parse_cpumask parser "1-2" 8 7%positive w = Returns (- ENOMEM) w' ->
    cells w' !! 7%positive = cells w !! 7%positive.
Proof.
  intros parser w.
  assert (Hparse : parser "1-2"%string = None) by reflexivity.
  split; [assumption|].
  exact (parse_cpumask_enomem parser w "1-2" 8 7%positive Hparse).
Defined.

(** * Further properties of the code *)

(** ** [numa_initialize] *)

Section NumaInitializeFacts.

Variable numa_available : nat -> Z.

(** Once initialised, every call answers from the static variable and
    leaves libnuma alone. *)
Lemma numa_initialize_times_cached (n : nat) (v : Z) (k : nat) :
  numa_initialize_times numa_available n (NumaStatic 1 v k) =
  (replicate n v, NumaStatic 1 v k).
Proof.
  induction n as [|n IH]; [reflexivity|].
  cbn [numa_initialize_times]. unfold numa_initialize.
  cbn [is_initialized Z.eqb Pos.eqb numa]. now rewrite IH.
Qed.

(** X1: from program start, any number of calls of [numa_initialize] all
    return the same value, 1 when the first answer of [numa_available] is
    not -1 and 0 when it is; [numa_available] is called once, whatever the
    number of calls, and its later answers play no part. *)
Theorem numa_initialize_once (n : nat) :
  let v := if numa_available 0 =? -1 then 0 else 1 in
  numa_initialize_times numa_available (S n) numa_static_start =
  (replicate (S n) v, NumaStatic 1 v 1).
Proof.
  intros v. cbn [numa_initialize_times]. unfold numa_initialize at 1.
  cbn [is_initialized numa_static_start Z.eqb available_calls numa].
  assert (Hv : (if negb (numa_available 0 =? -1) then 1 else 0) = v).
  { subst v. now destruct (numa_available 0 =? -1). }
  rewrite Hv, numa_initialize_times_cached. reflexivity.
Qed.

End NumaInitializeFacts.

(** ** More on bit masks *)

Section MoreMaskFacts.

Implicit Types (bm M : bitmask) (c i : Z).

Lemma isbitset_of_nat bm (j : nat) :
  isbitset bm (Z.of_nat j) = default false (bm !! j).
Proof.
  unfold isbitset. destruct (Z.ltb_spec (Z.of_nat j) 0); [lia|].
  now rewrite Nat2Z.id.
Qed.

(** Masks of one capacity with the same bits are the same mask. *)
Lemma bitmask_ext M1 M2 :
  length M1 = length M2 ->
  (forall c, isbitset M1 c = isbitset M2 c) -> M1 = M2.
Proof.
  intros Hlen Hbits. apply list_eq. intros j.
  specialize (Hbits (Z.of_nat j)). rewrite !isbitset_of_nat in Hbits.
  unfold bitmask in *.
  destruct (decide (j < length M1)%nat) as [Hlt|Hge].
  - destruct (lookup_lt_is_Some_2 M1 j Hlt) as [b1 H1].
    destruct (lookup_lt_is_Some_2 M2 j ltac:(lia)) as [b2 H2].
    rewrite H1, H2 in Hbits. simpl in Hbits. rewrite H1, H2. now subst.
  - rewrite !lookup_ge_None_2 by lia. reflexivity.
Qed.

Lemma length_clearbit bm n : length (clearbit bm n) = length bm.
Proof.
  unfold clearbit. destruct (n <? 0); [reflexivity | apply length_insert].
Qed.

Lemma members_NoDup bm : NoDup (members bm).
Proof.
  pose proof (members_sorted bm) as Hs.
  induction Hs as [|c l Hs IH Hall]; constructor; [|assumption].
  intros Hin. rewrite Forall_forall in Hall. specialize (Hall c Hin). lia.
Qed.

Lemma weight_zero bm :
  weight bm = 0 <-> forall c, isbitset bm c = false.
Proof.
  rewrite weight_members. split.
  - intros Hlen c. destruct (isbitset bm c) eqn:Hset; [|reflexivity].
    apply elem_of_members in Hset.
    destruct (members bm); [now apply elem_of_nil in Hset | discriminate].
  - intros Hnone. destruct (members bm) as [|c l] eqn:Hmem; [reflexivity|].
    assert (Hc : c ∈ members bm) by (rewrite Hmem; apply list_elem_of_here).
    apply elem_of_members in Hc. rewrite Hnone in Hc. discriminate.
Qed.

Lemma isbitset_cons_0 b bm : isbitset (b :: bm) 0 = b.
Proof. reflexivity. Qed.

Lemma isbitset_cons_succ b bm c :
  0 <= c -> isbitset (b :: bm) (c + 1) = isbitset bm c.
Proof.
  intros Hc. unfold isbitset.
  destruct (Z.ltb_spec (c + 1) 0), (Z.ltb_spec c 0); try lia.
  replace (Z.to_nat (c + 1)) with (S (Z.to_nat c)) by lia. reflexivity.
Qed.

(** A mask whose members are members of another one of the same capacity
    weighs no more. *)
Lemma weight_subset M1 M2 :
  length M1 = length M2 ->
  (forall c, isbitset M1 c = true -> isbitset M2 c = true) ->
  weight M1 <= weight M2.
Proof.
  revert M2. induction M1 as [|b1 M1 IH]; intros [|b2 M2] Hlen Hsub;
    simpl in Hlen; try discriminate Hlen; [reflexivity|].
  assert (Hrest : weight M1 <= weight M2).
  { apply IH; [now injection Hlen|]. intros c Hc.
    destruct (Z.ltb_spec c 0) as [Hneg|Hpos].
    - unfold isbitset in Hc. destruct (Z.ltb_spec c 0); [discriminate|lia].
    - rewrite <- (isbitset_cons_succ b2) by assumption. apply Hsub.
      now rewrite isbitset_cons_succ. }
  specialize (Hsub 0). rewrite !isbitset_cons_0 in Hsub.
  simpl. destruct b1, b2; try lia; now specialize (Hsub eq_refl).
Qed.

End MoreMaskFacts.

(** ** More on the reconciler *)

Section ReconcileFacts.

Implicit Types (M A : bitmask) (c i : Z) (n : nat).

Lemma reconcile_loop_length n i M A :
  length (reconcile_loop n i M A) = length M.
Proof.
  revert i M. induction n as [|n IH]; intros i M; [reflexivity|].
  cbn [reconcile_loop]. rewrite IH.
  destruct (negb _ || negb _); [apply length_clearbit | reflexivity].
Qed.

Lemma reconcile_loop_bits n i M A c :
  isbitset (reconcile_loop n i M A) c =
  if (i <=? c) && (c <? i + Z.of_nat n)
  then isbitset M c && isbitset A c else isbitset M c.
Proof.
  revert i M. induction n as [|n IH]; intros i M.
  - cbn [reconcile_loop].
    destruct (Z.leb_spec i c), (Z.ltb_spec c (i + Z.of_nat 0)); simpl;
      try reflexivity; lia.
  - cbn [reconcile_loop]. rewrite IH.
    assert (Hstep :
      isbitset (if negb (isbitset M i) || negb (isbitset A i)
                then clearbit M i else M) c =
      if c =? i then isbitset M c && isbitset A c else isbitset M c).
    { destruct (isbitset M i) eqn:HMi, (isbitset A i) eqn:HAi; simpl;
        rewrite ?isbitset_clearbit;
        destruct (Z.eqb_spec c i) as [->|_]; try reflexivity;
        now rewrite HMi, ?HAi. }
    rewrite Hstep.
    destruct (Z.eqb_spec c i), (Z.leb_spec (i + 1) c),
      (Z.ltb_spec c (i + 1 + Z.of_nat n)), (Z.leb_spec i c),
      (Z.ltb_spec c (i + Z.of_nat (S n))); simpl; try reflexivity; lia.
Qed.

Lemma reconciled_length max_cpus M A :
  length (reconciled max_cpus M A) = length M.
Proof. apply reconcile_loop_length. Qed.

Lemma reconciled_bits max_cpus M A c :
  isbitset (reconciled max_cpus M A) c =
  if (0 <=? c) && (c <? max_cpus)
  then isbitset M c && isbitset A c else isbitset M c.
Proof.
  unfold reconciled. rewrite reconcile_loop_bits.
  destruct (Z.leb_spec 0 c), (Z.ltb_spec c max_cpus),
    (Z.ltb_spec c (0 + Z.of_nat (Z.to_nat max_cpus))); simpl;
    try reflexivity; lia.
Qed.

Lemma reconciled_idempotent max_cpus M A :
  reconciled max_cpus (reconciled max_cpus M A) A = reconciled max_cpus M A.
Proof.
  apply bitmask_ext; [now rewrite !reconciled_length|].
  intros c. rewrite !reconciled_bits.
  destruct ((0 <=? c) && (c <? max_cpus)); [|reflexivity].
  now destruct (isbitset M c), (isbitset A c).
Qed.

Lemma reconciled_allowed max_cpus M A :
  (forall c, 0 <= c < max_cpus ->
             isbitset M c = true -> isbitset A c = true) ->
  reconciled max_cpus M A = M.
Proof.
  intros Hallowed. apply bitmask_ext; [apply reconciled_length|].
  intros c. rewrite reconciled_bits.
  destruct (Z.leb_spec 0 c), (Z.ltb_spec c max_cpus); simpl;
    try reflexivity.
  destruct (isbitset M c) eqn:HM; [|reflexivity].
  rewrite Hallowed; [reflexivity | lia | assumption].
Qed.

(** The loop computes [reconcile_loop] in the caller's mask and changes
    nothing else. *)
Lemma use_current_cpuset_loop_exact n i (cpumask curmask : loc) (w : world)
    M A :
  heap w !! cpumask = Some M ->
  heap w !! curmask = Some A ->
  cpumask <> curmask ->
  use_current_cpuset_loop n i cpumask curmask w =
  Returns tt (set_heap (<[cpumask := reconcile_loop n i M A]> (heap w)) w).
Proof.
  revert i w M. induction n as [|n IH]; intros i w M Hmask Hcur Hne.
  - cbn [use_current_cpuset_loop reconcile_loop].
    now rewrite run_ret, insert_id, set_heap_same.
  - cbn [use_current_cpuset_loop reconcile_loop].
    rewrite run_bind, (run_isbitset _ _ _ _ Hmask), run_bind.
    assert (Hclear :
      use_current_cpuset_loop n (i + 1) cpumask curmask
        (set_heap (<[cpumask := clearbit M i]> (heap w)) w) =
      Returns tt
        (set_heap (<[cpumask := reconcile_loop n (i + 1) (clearbit M i) A]>
                     (heap w)) w)).
    { rewrite (IH (i + 1) _ (clearbit M i)).
      - now rewrite heap_set_heap, set_heap_set_heap, insert_insert_eq.
      - rewrite heap_set_heap. apply lookup_insert_eq.
      - now rewrite heap_set_heap, lookup_insert_ne.
      - assumption. }
    destruct (isbitset M i) eqn:HMi; cbn [negb orb].
    + rewrite run_bind, (run_isbitset _ _ _ _ Hcur), run_ret.
      destruct (isbitset A i) eqn:HAi; cbn [negb].
      * rewrite run_bind, run_ret. now apply IH.
      * now rewrite run_bind, (run_clearbit _ _ _ _ Hmask).
    + now rewrite run_ret, run_bind, (run_clearbit _ _ _ _ Hmask).
Qed.

(** What [use_current_cpuset] does to the world: the caller's mask
    becomes [reconciled], the queried mask is gone again. *)
Lemma use_current_cpuset_run (w : world) (cpumask : loc) M (max_cpus : Z) :
  heap w !! cpumask = Some M ->
  use_current_cpuset max_cpus cpumask w =
  Returns tt
    (set_heap (<[cpumask := reconciled max_cpus M (numa_affinity w)]>
                 (heap w)) w).
Proof.
  intros Hmask. unfold use_current_cpuset, reconciled.
  set (q := fresh (dom (heap w))).
  assert (Hq : heap w !! q = None) by apply not_elem_of_dom, is_fresh.
  assert (Hne : cpumask <> q) by congruence.
  rewrite run_bind. unfold numa_allocate_cpumask. fold q.
  rewrite run_bind. unfold numa_sched_getaffinity.
  rewrite run_bind, (run_read_mask _ q (replicate _ false))
    by apply lookup_insert_eq.
  rewrite run_bind. unfold query_numa_affinity, write_mask.
  rewrite set_heap_set_heap, heap_set_heap, numa_affinity_set_heap.
  rewrite insert_insert_eq, run_bind.
  rewrite (use_current_cpuset_loop_exact _ _ _ q _ M (numa_affinity w));
    [| now rewrite heap_set_heap, lookup_insert_ne
     | rewrite heap_set_heap; apply lookup_insert_eq
     | assumption].
  rewrite (run_free _ q (numa_affinity w)).
  - rewrite !heap_set_heap, !set_heap_set_heap.
    rewrite delete_insert_ne by congruence.
    now rewrite delete_insert_id.
  - rewrite !heap_set_heap, lookup_insert_ne by congruence.
    apply lookup_insert_eq.
Qed.

End ReconcileFacts.

(** X2: [use_current_cpuset] keeps the capacity of the caller's mask and
    every bit whose id is not in [0, max_cpus): a CPU at or above
    [max_cpus] stays in the mask whether the environment allows it or
    not. *)
Theorem use_current_cpuset_outside_kept (w : world) (cpumask : loc)
    (M : bitmask) (max_cpus : Z) :
  heap w !! cpumask = Some M ->
  exists M',
    use_current_cpuset max_cpus cpumask w =
      Returns tt (set_heap (<[cpumask := M']> (heap w)) w) /\
    length M' = length M /\
    forall c, c < 0 \/ max_cpus <= c -> isbitset M' c = isbitset M c.
Proof.
  intros Hmask. exists (reconciled max_cpus M (numa_affinity w)).
  split; [now apply use_current_cpuset_run|].
  split; [apply reconciled_length|].
  intros c Hc. rewrite reconciled_bits.
  destruct (Z.leb_spec 0 c), (Z.ltb_spec c max_cpus); simpl;
    try reflexivity; lia.
Qed.

Lemma use_current_cpuset_outside_kept_witness :
  heap (world_with mask_1245) !! 1%positive = Some mask_1245 /\
  exists M',
    use_current_cpuset 4 1%positive (world_with mask_1245) =
      Returns tt (set_heap (<[1%positive := M']>
                              (heap (world_with mask_1245)))
                           (world_with mask_1245)) /\
    length M' = length mask_1245 /\
    forall c, c < 0 \/ 4 <= c -> isbitset M' c = isbitset mask_1245 c.
Proof.
  assert (Hw : heap (world_with mask_1245) !! 1%positive = Some mask_1245)
    by reflexivity.
  split; [assumption|].
  exact (use_current_cpuset_outside_kept (world_with mask_1245) 1%positive
           mask_1245 4 Hw).
Defined.

(** X3: [use_current_cpuset] is idempotent: a second call with the same
    [max_cpus], the environment's mask being the same, leaves the world the
    first call made. *)
Theorem use_current_cpuset_idempotent (w : world) (cpumask : loc)
    (M : bitmask) (max_cpus : Z) :
  heap w !! cpumask = Some M ->
  exists w',
    use_current_cpuset max_cpus cpumask w = Returns tt w' /\
    use_current_cpuset max_cpus cpumask w' = Returns tt w'.
Proof.
  intros Hmask. set (M' := reconciled max_cpus M (numa_affinity w)).
  exists (set_heap (<[cpumask := M']> (heap w)) w).
  split; [now apply use_current_cpuset_run|].
  rewrite (use_current_cpuset_run _ _ M')
    by (rewrite heap_set_heap; apply lookup_insert_eq).
  subst M'.
  rewrite numa_affinity_set_heap, heap_set_heap, set_heap_set_heap.
  now rewrite insert_insert_eq, reconciled_idempotent.
Qed.

Lemma use_current_cpuset_idempotent_witness :
  heap (world_with mask_1245) !! 1%positive = Some mask_1245 /\
  exists w',
    use_current_cpuset 8 1%positive (world_with mask_1245) = Returns tt w' /\
    use_current_cpuset 8 1%positive w' = Returns tt w'.
Proof.
  assert (Hw : heap (world_with mask_1245) !! 1%positive = Some mask_1245)
    by reflexivity.
  split; [assumption|].
  exact (use_current_cpuset_idempotent (world_with mask_1245) 1%positive
           mask_1245 8 Hw).
Defined.

(** X4: when the environment allows every member of the caller's mask
    below [max_cpus], [use_current_cpuset] changes nothing: the world after
    the call is the world before it. *)
Theorem use_current_cpuset_allowed (w : world) (cpumask : loc)
    (M : bitmask) (max_cpus : Z) :
  heap w !! cpumask = Some M ->
  (forall c, 0 <= c < max_cpus ->
             isbitset M c = true -> isbitset (numa_affinity w) c = true) ->
  use_current_cpuset max_cpus cpumask w = Returns tt w.
Proof.
  intros Hmask Hallowed.
  rewrite (use_current_cpuset_run _ _ M) by assumption.
  rewrite reconciled_allowed by assumption.
  now rewrite insert_id, set_heap_same.
Qed.

Lemma use_current_cpuset_allowed_witness :
  (heap (world_with mask_1245) !! 1%positive = Some mask_1245 /\
   forall c, 0 <= c < 2 ->
     isbitset mask_1245 c = true ->
     isbitset (numa_affinity (world_with mask_1245)) c = true) /\
  use_current_cpuset 2 1%positive (world_with mask_1245) =
    Returns tt (world_with mask_1245).
Proof.
  assert (Hw : heap (world_with mask_1245) !! 1%positive = Some mask_1245)
    by reflexivity.
  assert (Hallowed : forall c, 0 <= c < 2 ->
            isbitset mask_1245 c = true ->
            isbitset (numa_affinity (world_with mask_1245)) c = true).
  { intros c Hc _. assert (Hcases : c = 0 \/ c = 1) by lia.
    destruct Hcases as [->| ->]; reflexivity. }
  split; [split; assumption|].
  exact (use_current_cpuset_allowed (world_with mask_1245) 1%positive
           mask_1245 2 Hw Hallowed).
Defined.

(** X5: [use_current_cpuset] never raises the count of available CPUs:
    [get_available_cpus] on the caller's mask returns after the call at
    most what it returned before, and both counts lie between 0 and the
    capacity of the mask. *)
Theorem use_current_cpuset_count (w : world) (cpumask : loc) (M : bitmask)
    (max_cpus : Z) :
  heap w !! cpumask = Some M ->
  exists w' before after,
    use_current_cpuset max_cpus cpumask w = Returns tt w' /\
    get_available_cpus (Some cpumask) w = Returns before w /\
    get_available_cpus (Some cpumask) w' = Returns after w' /\
    0 <= after <= before /\ before <= Z.of_nat (length M).
Proof.
  intros Hmask.
  exists (set_heap (<[cpumask := reconciled max_cpus M (numa_affinity w)]>
                      (heap w)) w),
    (weight M), (weight (reconciled max_cpus M (numa_affinity w))).
  split; [now apply use_current_cpuset_run|].
  split; [now apply run_weight|].
  split; [apply run_weight; rewrite heap_set_heap; apply lookup_insert_eq|].
  pose proof (weight_le_capacity M).
  pose proof (weight_le_capacity (reconciled max_cpus M (numa_affinity w))).
  assert (weight (reconciled max_cpus M (numa_affinity w)) <= weight M);
    [|lia].
  apply weight_subset; [apply reconciled_length|].
  intros c. rewrite reconciled_bits.
  destruct ((0 <=? c) && (c <? max_cpus)); [|tauto].
  now intros [HM _]%andb_true_iff.
Qed.

Lemma use_current_cpuset_count_witness :
  heap (world_with mask_1245) !! 1%positive = Some mask_1245 /\
  exists w' before after,
    use_current_cpuset 8 1%positive (world_with mask_1245) =
      Returns tt w' /\
    get_available_cpus (Some 1%positive) (world_with mask_1245) =
      Returns before (world_with mask_1245) /\
    get_available_cpus (Some 1%positive) w' = Returns after w' /\
    0 <= after <= before /\ before <= Z.of_nat (length mask_1245).
Proof.
  assert (Hw : heap (world_with mask_1245) !! 1%positive = Some mask_1245)
    by reflexivity.
  split; [assumption|].
  exact (use_current_cpuset_count (world_with mask_1245) 1%positive
           mask_1245 8 Hw).
Defined.

(** ** More on the parser *)

Section MoreParserFacts.

Variable cpustring_bits : string -> option bitmask.

Lemma set_cells_set_heap (c : gmap addr ptr) (h : gmap loc bitmask)
    (w : world) :
  heap (set_cells c (set_heap h w)) = h /\
  cells (set_cells c (set_heap h w)) = c /\
  numa_affinity (set_cells c (set_heap h w)) = numa_affinity w /\
  sched_affinity (set_cells c (set_heap h w)) = sched_affinity w /\
  stderr (set_cells c (set_heap h w)) = stderr w.
Proof. repeat split. Qed.

(** The successful path of [parse_cpumask] for a list with members: the
    parsed mask is new, it is reconciled when the string holds a modifier,
    and the caller's variable points to it. *)
Lemma parse_cpumask_run (w : world) (str : string) (max_cpus : Z)
    (cpumask : addr) (bits : bitmask) :
  cpustring_bits str = Some bits ->
  weight bits <> 0 ->
  let p := fresh (dom (heap w)) in
  let M := if strchr str "!"%char || strchr str "+"%char
           then reconciled max_cpus bits (numa_affinity w) else bits in
  heap w !! p = None /\
  parse_cpumask cpustring_bits str max_cpus cpumask w =
    Returns 0 (set_cells (<[cpumask := Some p]> (cells w))
                         (set_heap (<[p := M]> (heap w)) w)).
Proof.
  intros Hparse Hweight p M.
  assert (Hp : heap w !! p = None) by apply not_elem_of_dom, is_fresh.
  split; [assumption|].
  unfold parse_cpumask, numa_parse_cpustring_all.
  rewrite run_bind, Hparse. fold p.
  rewrite run_bind, (run_weight _ p bits)
    by (rewrite heap_set_heap; apply lookup_insert_eq).
  destruct (Z.eqb_spec (weight bits) 0) as [H0|_]; [contradiction|].
  rewrite run_bind. subst M.
  destruct (strchr str "!"%char || strchr str "+"%char).
  - rewrite (use_current_cpuset_run _ p bits)
      by (rewrite heap_set_heap; apply lookup_insert_eq).
    rewrite numa_affinity_set_heap, heap_set_heap, set_heap_set_heap.
    now rewrite insert_insert_eq.
  - reflexivity.
Qed.

(** X6: for a list without [!] and [+] whose parsed mask has a member,
    [parse_cpumask] returns 0 and makes [*cpumask] point to a new mask that
    holds the parsed bits as they are; the affinity of the process plays no
    part, and nothing else in the world changes. *)
Theorem parse_cpumask_verbatim (w : world) (str : string) (max_cpus : Z)
    (cpumask : addr) (bits : bitmask) :
  cpustring_bits str = Some bits ->
  weight bits <> 0 ->
  strchr str "!"%char = false -> strchr str "+"%char = false ->
  exists p,
    heap w !! p = None /\
    parse_cpumask cpustring_bits str max_cpus cpumask w =
      Returns 0 (set_cells (<[cpumask := Some p]> (cells w))
                           (set_heap (<[p := bits]> (heap w)) w)).
Proof.
  intros Hparse Hweight Hbang Hplus.
  destruct (parse_cpumask_run w str max_cpus cpumask bits Hparse Hweight)
    as [Hp Hrun].
  rewrite Hbang, Hplus in Hrun. eauto.
Qed.

(** X7: for a list with [!] or [+] whose parsed mask has a member,
    [parse_cpumask] returns 0 and makes [*cpumask] point to a new mask of
    the capacity of the parsed one, in which a CPU below [max_cpus] is set
    when it is parsed and allowed by the environment, and any other CPU when
    it is parsed.  That mask is the only allocation the call leaves. *)
Theorem parse_cpumask_modifier (w : world) (str : string) (max_cpus : Z)
    (cpumask : addr) (bits : bitmask) :
  cpustring_bits str = Some bits ->
  weight bits <> 0 ->
  strchr str "!"%char || strchr str "+"%char = true ->
  exists p M,
    heap w !! p = None /\
    parse_cpumask cpustring_bits str max_cpus cpumask w =
      Returns 0 (set_cells (<[cpumask := Some p]> (cells w))
                           (set_heap (<[p := M]> (heap w)) w)) /\
    length M = length bits /\
    forall c,
      isbitset M c =
      if (0 <=? c) && (c <? max_cpus)
      then isbitset bits c && isbitset (numa_affinity w) c
      else isbitset bits c.
Proof.
  intros Hparse Hweight Hmod.
  destruct (parse_cpumask_run w str max_cpus cpumask bits Hparse Hweight)
    as [Hp Hrun].
  rewrite Hmod in Hrun.
  exists (fresh (dom (heap w))), (reconciled max_cpus bits (numa_affinity w)).
  split; [assumption|]. split; [assumption|].
  split; [apply reconciled_length | apply reconciled_bits].
Qed.

(** X8: [parse_cpumask] ends in one of two ways, whatever its arguments:
    it returns [-ENOMEM] with the world unchanged, exactly when the parser
    fails; or it returns 0 after storing a pointer in [*cpumask], [NULL]
    exactly when the parsed mask has no member.  It never ends the process,
    it writes nothing to stderr, and every mask that was in the heap is
    still there, unchanged. *)
Theorem parse_cpumask_outcomes (w : world) (str : string) (max_cpus : Z)
    (cpumask : addr) :
  (cpustring_bits str = None /\
   parse_cpumask cpustring_bits str max_cpus cpumask w =
     Returns (- ENOMEM) w) \/
  (exists bits v w',
      cpustring_bits str = Some bits /\
      parse_cpumask cpustring_bits str max_cpus cpumask w = Returns 0 w' /\
      cells w' = <[cpumask := v]> (cells w) /\
      (v = None <-> weight bits = 0) /\
      heap w ⊆ heap w' /\
      stderr w' = stderr w).
Proof.
  destruct (cpustring_bits str) as [bits|] eqn:Hparse.
  - right. exists bits.
    destruct (Z.eq_dec (weight bits) 0) as [H0|Hne].
    + exists None, (set_cells (<[cpumask := None]> (cells w)) w).
      split; [reflexivity|]. split.
      * unfold parse_cpumask, numa_parse_cpustring_all.
        rewrite run_bind, Hparse.
        set (p := fresh (dom (heap w))).
        assert (Hp : heap w !! p = None) by apply not_elem_of_dom, is_fresh.
        rewrite run_bind, (run_weight _ p bits) by apply lookup_insert_eq.
        rewrite H0. cbn [Z.eqb].
        rewrite run_bind, (run_free _ p bits) by apply lookup_insert_eq.
        rewrite heap_set_heap, set_heap_set_heap, delete_insert_id
          by assumption.
        now rewrite set_heap_same.
      * repeat split; try reflexivity; try tauto.
    + destruct (parse_cpumask_run w str max_cpus cpumask bits Hparse Hne)
        as [Hp Hrun].
      eexists (Some _), _. split; [reflexivity|].
      split; [exact Hrun|].
      split; [reflexivity|]. split; [split; [discriminate | contradiction]|].
      split; [|reflexivity].
      apply insert_subseteq, Hp.
  - left. split; [reflexivity|].
    unfold parse_cpumask, numa_parse_cpustring_all.
    now rewrite run_bind, Hparse.
Qed.

End MoreParserFacts.

Lemma parse_cpumask_verbatim_witness :
  let parser := fun _ : string => Some mask_1245 in
  (parser "1-2,4-5"%string = Some mask_1245 /\
   weight mask_1245 <> 0 /\
   strchr "1-2,4-5" "!"%char = false /\
   strchr "1-2,4-5" "+"%char = false) /\
  exists p,
    heap (world_with mask_5) !! p = None /\
    parse_cpumask parser "1-2,4-5" 8 7%positive (world_with mask_5) =
      Returns 0
        (set_cells (<[7%positive := Some p]> (cells (world_with mask_5)))
           (set_heap (<[p := mask_1245]> (heap (world_with mask_5)))
                     (world_with mask_5))).
Proof.
  intros parser.
  assert (Hparse : parser "1-2,4-5"%string = Some mask_1245) by reflexivity.
  assert (Hweight : weight mask_1245 <> 0) by (simpl; lia).
  assert (Hbang : strchr "1-2,4-5" "!"%char = false) by reflexivity.
  assert (Hplus : strchr "1-2,4-5" "+"%char = false) by reflexivity.
  split; [tauto|].
  exact (parse_cpumask_verbatim parser (world_with mask_5) "1-2,4-5" 8
           7%positive mask_1245 Hparse Hweight Hbang Hplus).
Defined.

Lemma parse_cpumask_modifier_witness :
  let parser := fun _ : string => Some mask_1245 in
  (parser "+1-2,4-5"%string = Some mask_1245 /\
   weight mask_1245 <> 0 /\
   strchr "+1-2,4-5" "!"%char || strchr "+1-2,4-5" "+"%char = true) /\
  exists p M,
    heap (world_with mask_5) !! p = None /\
    parse_cpumask parser "+1-2,4-5" 8 7%positive (world_with mask_5) =
      Returns 0
        (set_cells (<[7%positive := Some p]> (cells (world_with mask_5)))
           (set_heap (<[p := M]> (heap (world_with mask_5)))
                     (world_with mask_5))) /\
    length M = length mask_1245 /\
    forall c,
      isbitset M c =
      if (0 <=? c) && (c <? 8)
      then isbitset mask_1245 c &&
           isbitset (numa_affinity (world_with mask_5)) c
      else isbitset mask_1245 c.
Proof.
  intros parser.
  assert (Hparse : parser "+1-2,4-5"%string = Some mask_1245)
    by reflexivity.
  assert (Hweight : weight mask_1245 <> 0) by (simpl; lia).
  assert (Hmod : strchr "+1-2,4-5" "!"%char
                 || strchr "+1-2,4-5" "+"%char = true) by reflexivity.
  split; [tauto|].
  exact (parse_cpumask_modifier parser (world_with mask_5) "+1-2,4-5" 8
           7%positive mask_1245 Hparse Hweight Hmod).
Defined.

Section ParseThenPlace.

Variable cpustring_bits : string -> option bitmask.

(** X9: a list with [!] or [+] whose CPUs are all below [max_cpus] and all
    forbidden by the environment is not reported as absent: the weight is
    tested before the reconciliation, so [parse_cpumask] returns 0 with
    [*cpumask] pointing to a mask without members.  [get_available_cpus]
    then counts 0 CPUs in it and [cpu_for_thread_sp] ends the process. *)
Theorem parse_cpumask_reconciled_empty (w : world) (str : string)
    (max_cpus : Z) (cpumask : addr) (bits : bitmask) :
  cpustring_bits str = Some bits ->
  weight bits <> 0 ->
  strchr str "!"%char || strchr str "+"%char = true ->
  Forall (fun c => 0 <= c < max_cpus /\
                   isbitset (numa_affinity w) c = false) (members bits) ->
  exists p w',
    parse_cpumask cpustring_bits str max_cpus cpumask w = Returns 0 w' /\
    cells w' !! cpumask = Some (Some p) /\
    get_available_cpus (Some p) w' = Returns 0 w' /\
    forall thread_num,
      cpu_for_thread_sp thread_num max_cpus p w' = Exits msg_no_cpus w'.
Proof.
  intros Hparse Hweight Hmod Hforbidden.
  destruct (parse_cpumask_run cpustring_bits w str max_cpus cpumask bits
              Hparse Hweight) as [Hp Hrun].
  rewrite Hmod in Hrun.
  set (p := fresh (dom (heap w))) in *.
  set (M := reconciled max_cpus bits (numa_affinity w)) in *.
  set (w' := set_cells _ _) in Hrun.
  assert (Hmask : heap w' !! p = Some M) by apply lookup_insert_eq.
  assert (HM : weight M = 0).
  { apply weight_zero. intros c. subst M. rewrite reconciled_bits.
    destruct (isbitset bits c) eqn:Hc.
    - apply elem_of_members in Hc. rewrite Forall_forall in Hforbidden.
      destruct (Hforbidden c Hc) as [Hrange Hno]. rewrite Hno.
      destruct (Z.leb_spec 0 c), (Z.ltb_spec c max_cpus); simpl;
        try reflexivity; lia.
    - now destruct ((0 <=? c) && (c <? max_cpus)). }
  exists p, w'. split; [assumption|].
  split; [apply lookup_insert_eq|]. split.
  - cbn [get_available_cpus]. now rewrite (run_weight _ _ _ Hmask), HM.
  - intros thread_num. unfold cpu_for_thread_sp.
    now rewrite run_bind, (run_weight _ _ _ Hmask), HM.
Qed.

(** X10: parsing, then counting and placing.  After [parse_cpumask] of a
    list without modifier whose CPUs are all below [max_cpus],
    [get_available_cpus] on the mask stored in [*cpumask] returns the
    number N >= 1 of CPUs in the list, and [cpu_for_thread_sp] places thread
    t on the CPU number (t mod N) of the list, in ascending order. *)
Theorem parse_cpumask_then_place (w : world) (str : string)
    (max_cpus : Z) (cpumask : addr) (bits : bitmask) (thread_num : Z) :
  cpustring_bits str = Some bits ->
  weight bits <> 0 ->
  strchr str "!"%char = false -> strchr str "+"%char = false ->
  Forall (fun c => 0 <= c < max_cpus) (members bits) ->
  is_int max_cpus -> is_int thread_num -> 0 <= thread_num ->
  exists p w' c,
    parse_cpumask cpustring_bits str max_cpus cpumask w = Returns 0 w' /\
    cells w' !! cpumask = Some (Some p) /\
    get_available_cpus (Some p) w' = Returns (weight bits) w' /\
    members bits !! Z.to_nat (thread_num mod weight bits) = Some c /\
    cpu_for_thread_sp thread_num max_cpus p w' = Returns c w'.
Proof.
  intros Hparse Hweight Hbang Hplus Hall Hmax Ht Ht0.
  destruct (parse_cpumask_run cpustring_bits w str max_cpus cpumask bits
              Hparse Hweight) as [Hp Hrun].
  rewrite Hbang, Hplus in Hrun. cbn [orb] in Hrun.
  set (p := fresh (dom (heap w))) in *.
  set (w' := set_cells _ _) in Hrun.
  assert (Hmask : heap w' !! p = Some bits) by apply lookup_insert_eq.
  pose proof (weight_nonneg bits) as Hnonneg.
  destruct (cpu_for_thread_sp_pick w' p bits thread_num max_cpus)
    as (c & Hc & _ & Hplace); try assumption; [lia|].
  rewrite (to_uint_nonneg_int thread_num) in Hc by assumption.
  exists p, w', c. split; [assumption|].
  split; [apply lookup_insert_eq|].
  split; [now apply run_weight|]. now split.
Qed.

End ParseThenPlace.

Lemma parse_cpumask_reconciled_empty_witness :
  let parser := fun _ : string => Some [false; false; true; true] in
  let w := world_with mask_5 in
  (parser "2-3!"%string = Some [false; false; true; true] /\
   weight [false; false; true; true] <> 0 /\
   strchr "2-3!" "!"%char || strchr "2-3!" "+"%char = true /\
   Forall (fun c => 0 <= c < 8 /\ isbitset (numa_affinity w) c = false)
          (members [false; false; true; true])) /\
  exists p w',
    parse_cpumask parser "2-3!" 8 7%positive w = Returns 0 w' /\
    cells w' !! 7%positive = Some (Some p) /\
    get_available_cpus (Some p) w' = Returns 0 w' /\
    forall thread_num,
      cpu_for_thread_sp thread_num 8 p w' = Exits msg_no_cpus w'.
Proof.
  intros parser w.
  assert (Hparse : parser "2-3!"%string = Some [false; false; true; true])
    by reflexivity.
  assert (Hweight : weight [false; false; true; true] <> 0)
    by (simpl; lia).
  assert (Hmod : strchr "2-3!" "!"%char || strchr "2-3!" "+"%char = true)
    by reflexivity.
  assert (Hforbidden :
    Forall (fun c => 0 <= c < 8 /\ isbitset (numa_affinity w) c = false)
           (members [false; false; true; true])).
  { repeat constructor; lia. }
  split; [tauto|].
  exact (parse_cpumask_reconciled_empty parser w "2-3!" 8 7%positive
           [false; false; true; true] Hparse Hweight Hmod Hforbidden).
Defined.

Lemma parse_cpumask_then_place_witness :
  let parser := fun _ : string => Some mask_1245 in
  let w := world_with mask_5 in
  (parser "1-2,4-5"%string = Some mask_1245 /\
   weight mask_1245 <> 0 /\
   strchr "1-2,4-5" "!"%char = false /\
   strchr "1-2,4-5" "+"%char = false /\
   Forall (fun c => 0 <= c < 8) (members mask_1245) /\
   is_int 8 /\ is_int 6 /\ 0 <= 6) /\
  exists p w' c,
    parse_cpumask parser "1-2,4-5" 8 7%positive w = Returns 0 w' /\
    cells w' !! 7%positive = Some (Some p) /\
    get_available_cpus (Some p) w' = Returns (weight mask_1245) w' /\
    members mask_1245 !! Z.to_nat (6 mod weight mask_1245) = Some c /\
    cpu_for_thread_sp 6 8 p w' = Returns c w'.
Proof.
  intros parser w.
  assert (Hparse : parser "1-2,4-5"%string = Some mask_1245) by reflexivity.
  assert (Hweight : weight mask_1245 <> 0) by (simpl; lia).
  assert (Hbang : strchr "1-2,4-5" "!"%char = false) by reflexivity.
  assert (Hplus : strchr "1-2,4-5" "+"%char = false) by reflexivity.
  assert (Hall : Forall (fun c => 0 <= c < 8) (members mask_1245))
    by (repeat constructor; lia).
  assert (H8 : is_int 8) by int_range.
  assert (H6 : is_int 6) by int_range.
  assert (H0 : 0 <= 6) by lia.
  split; [tauto|].
  exact (parse_cpumask_then_place parser w "1-2,4-5" 8 7%positive
           mask_1245 6 Hparse Hweight Hbang Hplus Hall H8 H6 H0).
Defined.

(** ** More on strategy SP *)

Section MoreSpecificMask.

Variables (w : world) (cpumask : loc) (M : bitmask) (max_cpus : Z).
Hypothesis Hmask : heap w !! cpumask = Some M.

(** A mask with all its members below [max_cpus] has at most [max_cpus]
    of them. *)
Lemma weight_le_max_cpus :
  Forall (fun c => 0 <= c < max_cpus) (members M) ->
  weight M <= Z.max 0 max_cpus.
Proof.
  intros Hall. rewrite weight_members, <- (members_in_below M max_cpus)
    by assumption.
  unfold members_in.
  pose proof (length_filter (fun c => isbitset M c = true)
                (seqZ 0 (Z.of_nat (Z.to_nat max_cpus)))) as Hle.
  rewrite length_seqZ in Hle. lia.
Qed.

(** X11: when the members of the mask all lie in [0, max_cpus), two thread
    indices are placed on the same CPU exactly when they are congruent
    modulo the cardinality N; so the threads 0..N-1 get N different
    CPUs. *)
Theorem cpu_for_thread_sp_same_cpu (t1 t2 : Z) :
  1 <= weight M ->
  Forall (fun c => 0 <= c < max_cpus) (members M) ->
  is_int max_cpus ->
  is_int t1 -> 0 <= t1 -> is_int t2 -> 0 <= t2 ->
  cpu_for_thread_sp t1 max_cpus cpumask w =
    cpu_for_thread_sp t2 max_cpus cpumask w <->
  t1 mod weight M = t2 mod weight M.
Proof.
  intros HN Hall Hmax Hi1 H1 Hi2 H2.
  destruct (cpu_for_thread_sp_pick w cpumask M t1 max_cpus)
    as (c1 & Hc1 & _ & Hrun1); try assumption.
  destruct (cpu_for_thread_sp_pick w cpumask M t2 max_cpus)
    as (c2 & Hc2 & _ & Hrun2); try assumption.
  rewrite (to_uint_nonneg_int t1) in Hc1 by assumption.
  rewrite (to_uint_nonneg_int t2) in Hc2 by assumption.
  rewrite Hrun1, Hrun2. split.
  - intros Heq. injection Heq as ->.
    pose proof (NoDup_lookup _ _ _ _ (members_NoDup M) Hc1 Hc2) as Hidx.
    pose proof (Z.mod_pos_bound t1 (weight M)).
    pose proof (Z.mod_pos_bound t2 (weight M)). lia.
  - intros Heq. rewrite Heq in Hc1. congruence.
Qed.

(** X12: when the members of the mask all lie in [0, max_cpus), every
    member is the CPU of one of the threads 0..N-1: the placement uses the
    whole mask. *)
Theorem cpu_for_thread_sp_covers (c : Z) :
  Forall (fun c => 0 <= c < max_cpus) (members M) ->
  is_int max_cpus ->
  isbitset M c = true ->
  exists t,
    0 <= t < weight M /\
    cpu_for_thread_sp t max_cpus cpumask w = Returns c w.
Proof.
  intros Hall Hmax Hc. apply elem_of_members in Hc.
  destruct (list_elem_of_lookup_1 _ _ Hc) as [j Hj].
  pose proof (lookup_lt_Some _ _ _ Hj) as Hlt.
  pose proof (weight_members M) as HN.
  pose proof (weight_le_max_cpus Hall) as Hle.
  assert (Hrange : 0 <= Z.of_nat j < weight M) by lia.
  exists (Z.of_nat j). split; [assumption|].
  destruct (cpu_for_thread_sp_pick w cpumask M (Z.of_nat j) max_cpus)
    as (c' & Hc' & _ & Hrun); try assumption; [lia|].
  rewrite to_uint_small, Z.mod_small, Nat2Z.id in Hc'
    by (unfold is_int, INT_MAX, UINT_MOD in *; lia).
  rewrite Hrun. congruence.
Qed.

(** X13: for a mask of cardinality N >= 1 and any [max_cpus >= 0],
    [cpu_for_thread_sp] returns; either a member of the mask below
    [max_cpus], without a warning, or, when the mask has no more than
    m = thread_num mod N members below [max_cpus], CPU 0 after the "Bug in
    cpu mask handling code" warning. *)
Theorem cpu_for_thread_sp_outcomes (thread_num : Z) :
  1 <= weight M ->
  is_int max_cpus -> 0 <= max_cpus ->
  (exists c,
      cpu_for_thread_sp thread_num max_cpus cpumask w = Returns c w /\
      isbitset M c = true /\ 0 <= c < max_cpus) \/
  (cpu_for_thread_sp thread_num max_cpus cpumask w =
     Returns 0 (log_stderr msg_bug w) /\
   Z.of_nat (length (members_in M 0 (Z.to_nat max_cpus))) <=
     to_uint thread_num mod weight M).
Proof.
  intros HN Hmax Hmax0.
  rewrite (cpu_for_thread_sp_run w cpumask M Hmask) by assumption.
  rewrite (to_uint_nonneg_int max_cpus) by assumption.
  pose proof (Z.mod_pos_bound (to_uint thread_num) (weight M)) as Hm.
  destruct (members_in M 0 (Z.to_nat max_cpus)
            !! Z.to_nat (to_uint thread_num mod weight M)) as [c|] eqn:Hc.
  - left. exists c.
    apply list_elem_of_lookup_2, elem_of_members_in in Hc as [Hset Hrange].
    rewrite to_int_small by (unfold is_int in Hmax; lia).
    repeat split; try assumption; lia.
  - right. split; [reflexivity|].
    apply lookup_ge_None_1 in Hc. lia.
Qed.

(** X14: [cpu_for_thread_sp] ends the process exactly when
    [get_available_cpus] counts 0 CPUs in the same mask. *)
Theorem cpu_for_thread_sp_fatal_iff (thread_num : Z) :
  get_available_cpus (Some cpumask) w = Returns 0 w <->
  cpu_for_thread_sp thread_num max_cpus cpumask w = Exits msg_no_cpus w.
Proof.
  cbn [get_available_cpus]. rewrite (run_weight _ _ _ Hmask). split.
  - intros Heq. injection Heq as H0. unfold cpu_for_thread_sp.
    now rewrite run_bind, (run_weight _ _ _ Hmask), H0.
  - intros Hexit. pose proof (weight_nonneg M) as Hnonneg.
    destruct (Z.eq_dec (weight M) 0) as [->|Hne]; [reflexivity|].
    rewrite (cpu_for_thread_sp_run w cpumask M Hmask) in Hexit by lia.
    destruct (_ !! _) in Hexit; discriminate.
Qed.

End MoreSpecificMask.

Lemma cpu_for_thread_sp_same_cpu_witness :
  (heap (world_with mask_1245) !! 1%positive = Some mask_1245 /\
   1 <= weight mask_1245 /\
   Forall (fun c => 0 <= c < 8) (members mask_1245) /\
   is_int 8 /\ is_int 2 /\ 0 <= 2 /\ is_int 10 /\ 0 <= 10) /\
  (cpu_for_thread_sp 2 8 1%positive (world_with mask_1245) =
     cpu_for_thread_sp 10 8 1%positive (world_with mask_1245) <->
   2 mod weight mask_1245 = 10 mod weight mask_1245).
Proof.
  assert (Hw : heap (world_with mask_1245) !! 1%positive = Some mask_1245)
    by reflexivity.
  assert (HN : 1 <= weight mask_1245) by (simpl; lia).
  assert (Hall : Forall (fun c => 0 <= c < 8) (members mask_1245))
    by (repeat constructor; lia).
  assert (H8 : is_int 8) by int_range.
  assert (H2 : is_int 2) by int_range.
  assert (H10 : is_int 10) by int_range.
  assert (Hp2 : 0 <= 2) by lia.
  assert (Hp10 : 0 <= 10) by lia.
  split; [tauto|].
  exact (cpu_for_thread_sp_same_cpu (world_with mask_1245) 1%positive
           mask_1245 8 Hw 2 10 HN Hall H8 H2 Hp2 H10 Hp10).
Defined.

Lemma cpu_for_thread_sp_covers_witness :
  (heap (world_with mask_1245) !! 1%positive = Some mask_1245 /\
   Forall (fun c => 0 <= c < 8) (members mask_1245) /\
   is_int 8 /\ isbitset mask_1245 4 = true) /\
  exists t,
    0 <= t < weight mask_1245 /\
    cpu_for_thread_sp t 8 1%positive (world_with mask_1245) =
      Returns 4 (world_with mask_1245).
Proof.
  assert (Hw : heap (world_with mask_1245) !! 1%positive = Some mask_1245)
    by reflexivity.
  assert (Hall : Forall (fun c => 0 <= c < 8) (members mask_1245))
    by (repeat constructor; lia).
  assert (H8 : is_int 8) by int_range.
  assert (H4 : isbitset mask_1245 4 = true) by reflexivity.
  split; [tauto|].
  exact (cpu_for_thread_sp_covers (world_with mask_1245) 1%positive
           mask_1245 8 Hw 4 Hall H8 H4).
Defined.

Lemma cpu_for_thread_sp_outcomes_witness :
  (heap (world_with mask_1245) !! 1%positive = Some mask_1245 /\
   1 <= weight mask_1245 /\ is_int 5 /\ 0 <= 5) /\
  ((exists c,
       cpu_for_thread_sp 3 5 1%positive (world_with mask_1245) =
         Returns c (world_with mask_1245) /\
       isbitset mask_1245 c = true /\ 0 <= c < 5) \/
   (cpu_for_thread_sp 3 5 1%positive (world_with mask_1245) =
      Returns 0 (log_stderr msg_bug (world_with mask_1245)) /\
    Z.of_nat (length (members_in mask_1245 0 (Z.to_nat 5))) <=
      to_uint 3 mod weight mask_1245)).
Proof.
  assert (Hw : heap (world_with mask_1245) !! 1%positive = Some mask_1245)
    by reflexivity.
  assert (HN : 1 <= weight mask_1245) by (simpl; lia).
  assert (H5 : is_int 5) by int_range.
  assert (Hp5 : 0 <= 5) by lia.
  split; [tauto|].
  exact (cpu_for_thread_sp_outcomes (world_with mask_1245) 1%positive
           mask_1245 5 Hw 3 HN H5 Hp5).
Defined.

Lemma cpu_for_thread_sp_fatal_iff_witness :
  heap (world_with mask_none) !! 1%positive = Some mask_none /\
  (get_available_cpus (Some 1%positive) (world_with mask_none) =
     Returns 0 (world_with mask_none) <->
   cpu_for_thread_sp 3 8 1%positive (world_with mask_none) =
     Exits msg_no_cpus (world_with mask_none)).
Proof.
  assert (Hw : heap (world_with mask_none) !! 1%positive = Some mask_none)
    by reflexivity.
  split; [assumption|].
  exact (cpu_for_thread_sp_fatal_iff (world_with mask_none) 1%positive
           mask_none 8 Hw 3).
Defined.

(** ** More on strategy UA *)

Section MoreUseAll.

Variables (w : world) (cpuset : cpu_set_t).

(** With [cpu] members counted so far and [cpu <= m], the loop returns the
    member number [m - cpu] of those it has yet to meet, if there is
    one. *)
Lemma cpu_for_thread_ua_loop_scan (n : nat) (m i cpu : Z) :
  cpu <= m ->
  cpu_for_thread_ua_loop n cpuset m i cpu w =
  Returns (members_in cpuset i n !! Z.to_nat (m - cpu)) w.
Proof.
  revert i cpu. induction n as [|n IH]; intros i cpu Hcpu; [reflexivity|].
  cbn [cpu_for_thread_ua_loop]. rewrite members_in_S. unfold CPU_ISSET.
  destruct (isbitset cpuset i).
  - destruct (Z.eqb_spec cpu m) as [->|Hne].
    + now rewrite Z.sub_diag.
    + rewrite IH by lia.
      replace (Z.to_nat (m - cpu)) with (S (Z.to_nat (m - (cpu + 1))))
        by lia.
      reflexivity.
  - now apply IH.
Qed.

(** What [cpu_for_thread_ua] does when the query succeeds with a set of
    at least one CPU and [m] is not negative. *)
Lemma cpu_for_thread_ua_run (thread_num max_cpus : Z) :
  sched_affinity w = Some cpuset ->
  1 <= CPU_COUNT cpuset ->
  0 <= Z.rem thread_num (CPU_COUNT cpuset) ->
  cpu_for_thread_ua thread_num max_cpus w =
  match members_in cpuset 0 (Z.to_nat max_cpus)
        !! Z.to_nat (Z.rem thread_num (CPU_COUNT cpuset)) with
  | Some i => Returns i w
  | None => Returns 0 (log_stderr msg_bug w)
  end.
Proof.
  intros Hos HN Hm. unfold cpu_for_thread_ua.
  rewrite run_bind, (run_sched_getaffinity _ _ _ Hos).
  cbn [Z.eqb negb]. rewrite run_bind, run_ret, run_bind. unfold srem.
  destruct (Z.eqb_spec (CPU_COUNT cpuset) 0) as [H0|_]; [lia|].
  destruct (Z.eqb_spec (CPU_COUNT cpuset) (-1)) as [H1|_]; [lia|].
  rewrite andb_false_r, run_ret, run_bind.
  rewrite cpu_for_thread_ua_loop_scan, Z.sub_0_r by assumption.
  destruct (members_in _ _ _ !! _); reflexivity.
Qed.

(** X15: when the OS reports a set of N >= 1 CPUs, all below [max_cpus],
    [cpu_for_thread_ua] places a non-negative thread index t on the
    (t mod N)-th CPU of the set in ascending order, without a warning. *)
Theorem cpu_for_thread_ua_nth_member (thread_num max_cpus : Z) :
  sched_affinity w = Some cpuset ->
  1 <= CPU_COUNT cpuset ->
  Forall (fun c => 0 <= c < max_cpus) (members cpuset) ->
  0 <= thread_num ->
  exists c,
    members cpuset !! Z.to_nat (thread_num mod CPU_COUNT cpuset) = Some c /\
    cpu_for_thread_ua thread_num max_cpus w = Returns c w.
Proof.
  intros Hos HN Hall Ht.
  assert (Hrem : Z.rem thread_num (CPU_COUNT cpuset) =
                 thread_num mod CPU_COUNT cpuset)
    by (apply Z.rem_mod_nonneg; lia).
  pose proof (Z.mod_pos_bound thread_num (CPU_COUNT cpuset)) as Hm.
  rewrite cpu_for_thread_ua_run by (assumption || lia).
  rewrite Hrem, members_in_below by assumption.
  destruct (lookup_lt_is_Some_2 (members cpuset)
              (Z.to_nat (thread_num mod CPU_COUNT cpuset))) as [c Hc].
  { unfold CPU_COUNT in *. rewrite weight_members in *. lia. }
  exists c. now rewrite Hc.
Qed.

(** X16: the two strategies agree.  When the mask given to
    [cpu_for_thread_sp] holds the set the OS reports, the set has a member
    and [max_cpus] is not negative, both functions end in the same way for
    every non-negative thread index: the same CPU, or the same warning and
    CPU 0. *)
Theorem cpu_for_thread_ua_sp_agree (cpumask : loc)
    (thread_num max_cpus : Z) :
  sched_affinity w = Some cpuset ->
  heap w !! cpumask = Some cpuset ->
  1 <= CPU_COUNT cpuset ->
  is_int max_cpus -> 0 <= max_cpus ->
  is_int thread_num -> 0 <= thread_num ->
  cpu_for_thread_ua thread_num max_cpus w =
  cpu_for_thread_sp thread_num max_cpus cpumask w.
Proof.
  intros Hos Hmask HN Hmax Hmax0 Ht Ht0.
  assert (Hrem : Z.rem thread_num (CPU_COUNT cpuset) =
                 thread_num mod CPU_COUNT cpuset)
    by (apply Z.rem_mod_nonneg; lia).
  pose proof (Z.mod_pos_bound thread_num (CPU_COUNT cpuset)) as Hm.
  rewrite cpu_for_thread_ua_run by (assumption || lia).
  rewrite (cpu_for_thread_sp_run w cpumask cpuset Hmask) by assumption.
  rewrite !to_uint_nonneg_int, Hrem by assumption.
  unfold CPU_COUNT.
  destruct (members_in cpuset 0 (Z.to_nat max_cpus)
            !! Z.to_nat (thread_num mod weight cpuset)) as [c|] eqn:Hc;
    [|reflexivity].
  apply list_elem_of_lookup_2, elem_of_members_in in Hc as [_ Hrange].
  rewrite to_int_small by (unfold is_int in Hmax; lia). reflexivity.
Qed.

End MoreUseAll.

Lemma cpu_for_thread_ua_nth_member_witness :
  (sched_affinity (world_with mask_1245) =
     Some [true; true; false; false; true] /\
   1 <= CPU_COUNT [true; true; false; false; true] /\
   Forall (fun c => 0 <= c < 8) (members [true; true; false; false; true]) /\
   0 <= 5) /\
  exists c,
    members [true; true; false; false; true]
      !! Z.to_nat (5 mod CPU_COUNT [true; true; false; false; true]) =
      Some c /\
    cpu_for_thread_ua 5 8 (world_with mask_1245) =
      Returns c (world_with mask_1245).
Proof.
  assert (Hos : sched_affinity (world_with mask_1245) =
                Some [true; true; false; false; true]) by reflexivity.
  assert (HN : 1 <= CPU_COUNT [true; true; false; false; true])
    by (simpl; lia).
  assert (Hall : Forall (fun c => 0 <= c < 8)
                        (members [true; true; false; false; true]))
    by (repeat constructor; lia).
  assert (H5 : 0 <= 5) by lia.
  split; [tauto|].
  exact (cpu_for_thread_ua_nth_member (world_with mask_1245)
           [true; true; false; false; true] 5 8 Hos HN Hall H5).
Defined.

Lemma cpu_for_thread_ua_sp_agree_witness :
  let s := [true; true; false; false; true] in
  let w := world_with s in
  (sched_affinity w = Some s /\ heap w !! 1%positive = Some s /\
   1 <= CPU_COUNT s /\ is_int 3 /\ 0 <= 3 /\ is_int 7 /\ 0 <= 7) /\
  cpu_for_thread_ua 7 3 w = cpu_for_thread_sp 7 3 1%positive w.
Proof.
  intros s w.
  assert (Hos : sched_affinity w = Some s) by reflexivity.
  assert (Hmask : heap w !! 1%positive = Some s) by reflexivity.
  assert (HN : 1 <= CPU_COUNT s) by (simpl; lia).
  assert (H3 : is_int 3) by int_range.
  assert (Hp3 : 0 <= 3) by lia.
  assert (H7 : is_int 7) by int_range.
  assert (Hp7 : 0 <= 7) by lia.
  split; [tauto|].
  exact (cpu_for_thread_ua_sp_agree w s 1%positive 7 3 Hos Hmask HN
           H3 Hp3 H7 Hp7).
Defined.

(** A scan that returns an id returns one it has visited, and a CPU of the
    set. *)
Lemma cpu_for_thread_ua_loop_range (w : world) (cpuset : cpu_set_t)
    (n : nat) (m i cpu : Z) :
  cpu_for_thread_ua_loop n cpuset m i cpu w = Returns None w \/
  exists c,
    cpu_for_thread_ua_loop n cpuset m i cpu w = Returns (Some c) w /\
    CPU_ISSET c cpuset = true /\ i <= c < i + Z.of_nat n.
Proof.
  revert i cpu. induction n as [|n IH]; intros i cpu; [now left|].
  cbn [cpu_for_thread_ua_loop].
  destruct (CPU_ISSET i cpuset) eqn:Hset.
  - destruct (cpu =? m).
    + right. exists i. repeat split; [assumption | lia | lia].
    + destruct (IH (i + 1) (cpu + 1)) as [Hnone|(c & Hrun & Hc & Hr)];
        [now left|].
      right. exists c. repeat split; [assumption | assumption | lia | lia].
  - destruct (IH (i + 1) cpu) as [Hnone|(c & Hrun & Hc & Hr)]; [now left|].
    right. exists c. repeat split; [assumption | assumption | lia | lia].
Qed.

(** X17: the ways [cpu_for_thread_ua] can end, for any arguments.  When
    the affinity query fails it ends the process; when the reported set is
    empty the remainder is undefined; otherwise it returns, either a CPU of
    the reported set in [0, max_cpus) without a warning, or CPU 0 after the
    warning.  It never returns any other id. *)
Theorem cpu_for_thread_ua_outcomes (w : world) (thread_num max_cpus : Z) :
  match sched_affinity w with
  | None =>
      cpu_for_thread_ua thread_num max_cpus w = Exits msg_getaffinity_s w
  | Some cpuset =>
      if CPU_COUNT cpuset =? 0 then
        cpu_for_thread_ua thread_num max_cpus w = Undefined DivisionByZero
      else
        (exists c,
            cpu_for_thread_ua thread_num max_cpus w = Returns c w /\
            CPU_ISSET c cpuset = true /\ 0 <= c < max_cpus) \/
        cpu_for_thread_ua thread_num max_cpus w =
          Returns 0 (log_stderr msg_bug w)
  end.
Proof.
  unfold cpu_for_thread_ua, sched_getaffinity. rewrite run_bind.
  destruct (sched_affinity w) as [cpuset|]; [|reflexivity].
  cbn [Z.eqb negb]. rewrite run_bind, run_ret, run_bind. unfold srem.
  pose proof (weight_nonneg cpuset) as Hnonneg. fold (CPU_COUNT cpuset) in *.
  destruct (Z.eqb_spec (CPU_COUNT cpuset) 0) as [H0|Hne]; [reflexivity|].
  destruct (Z.eqb_spec (CPU_COUNT cpuset) (-1)) as [H1|_]; [lia|].
  rewrite andb_false_r, run_ret, run_bind.
  destruct (cpu_for_thread_ua_loop_range w cpuset (Z.to_nat max_cpus)
              (Z.rem thread_num (CPU_COUNT cpuset)) 0 0)
    as [Hnone|(c & Hrun & Hc & Hr)].
  - right. now rewrite Hnone.
  - left. exists c. rewrite Hrun. repeat split; [assumption | lia | lia].
Qed.

(** X18: [cpu_for_thread_sp] converts [thread_num] to [unsigned int]
    before the remainder: when the members of the mask all lie in
    [0, max_cpus), a negative thread index t is placed, without a warning,
    on the member number ((t + 2^32) mod N) of the mask. *)
Theorem cpu_for_thread_sp_negative (w : world) (cpumask : loc)
    (M : bitmask) (thread_num max_cpus : Z) :
  heap w !! cpumask = Some M ->
  1 <= weight M ->
  Forall (fun c => 0 <= c < max_cpus) (members M) ->
  is_int max_cpus -> is_int thread_num -> thread_num < 0 ->
  exists c,
    members M !! Z.to_nat ((thread_num + 2 ^ 32) mod weight M) = Some c /\
    cpu_for_thread_sp thread_num max_cpus cpumask w = Returns c w.
Proof.
  intros Hmask HN Hall Hmax Ht Hneg.
  destruct (cpu_for_thread_sp_pick w cpumask M thread_num max_cpus)
    as (c & Hc & _ & Hrun); try assumption.
  exists c. split; [|assumption].
  assert (Hconv : to_uint thread_num = thread_num + 2 ^ 32).
  { unfold to_uint, UINT_MOD.
    rewrite <- (Z_mod_plus_full thread_num 1 (2 ^ 32)).
    rewrite Z.mul_1_l. apply Z.mod_small.
    unfold is_int, INT_MIN in Ht. lia. }
  now rewrite <- Hconv.
Qed.

Lemma cpu_for_thread_sp_negative_witness :
  (heap (world_with [true; true; true]) !! 1%positive =
     Some [true; true; true] /\
   1 <= weight [true; true; true] /\
   Forall (fun c => 0 <= c < 8) (members [true; true; true]) /\
   is_int 8 /\ is_int (-1) /\ -1 < 0) /\
  exists c,
    members [true; true; true]
      !! Z.to_nat ((-1 + 2 ^ 32) mod weight [true; true; true]) = Some c /\
    cpu_for_thread_sp (-1) 8 1%positive (world_with [true; true; true]) =
      Returns c (world_with [true; true; true]).
Proof.
  assert (Hw : heap (world_with [true; true; true]) !! 1%positive =
               Some [true; true; true]) by reflexivity.
  assert (HN : 1 <= weight [true; true; true]) by (simpl; lia).
  assert (Hall : Forall (fun c => 0 <= c < 8) (members [true; true; true]))
    by (repeat constructor; lia).
  assert (H8 : is_int 8) by int_range.
  assert (H1 : is_int (-1)) by int_range.
  assert (Hneg : -1 < 0) by lia.
  split; [tauto|].
  exact (cpu_for_thread_sp_negative (world_with [true; true; true])
           1%positive [true; true; true] (-1) 8 Hw HN Hall H8 H1 Hneg).
Defined.
